(** * webserver.py: the inline-image shrinker and its HTTP surface

    A shallow embedding of [src/webserver.py].  Python [str] values are
    modelled by their UTF-8 text as [list ascii]; [bytes] values as
    [list byte].  Exceptions are explicit: a computation that can raise
    returns a [res].  The libraries the module calls (Pillow, the MarkItDown
    converter, werkzeug) stay abstract, as variables of a section; the
    standard-library functions whose behaviour the properties depend on
    ([re.sub] with the module's pattern, [base64.b64decode] and
    [base64.b64encode], [int], IEEE-754 multiplication) are written out. *)

From Stdlib Require Import List Ascii String ZArith QArith Lia Bool Arith.
From Stdlib Require Import Strings.Byte.
From Stdlib Require Import Floats.SpecFloat.
Import ListNotations.

Set Implicit Arguments.
Open Scope Z_scope.

(** ** Text and bytes *)

Abbreviation str := (list ascii).
Abbreviation bytes := (list byte).

(** A Python string literal. *)
Definition lit (s : string) : str := list_ascii_of_string s.

Definition str_eqb (a b : str) : bool :=
  if list_eq_dec ascii_dec a b then true else false.

Definition len {A} (l : list A) : Z := Z.of_nat (List.length l).

(** ** Exceptions *)

Inductive exn_class :=
| ValueError
| TypeError
| OverflowError
| BinasciiError      (* binascii.Error, a subclass of ValueError *)
| AttributeError
| OtherException.    (* any other subclass of Exception *)

Record exn := mk_exn { exn_cls : exn_class ; exn_msg : str }.

Inductive res (A : Type) :=
| Ok (a : A)
| Raise (e : exn).
Arguments Ok {A} a.
Arguments Raise {A} e.

Definition bind {A B} (c : res A) (k : A -> res B) : res B :=
  match c with
  | Ok a => k a
  | Raise e => Raise e
  end.

Notation "'let*' x ':=' c 'in' k" := (bind c (fun x => k))
  (at level 10, x name, c at level 100, k at level 200).

(** [isinstance(e, ValueError)] *)
Definition is_ValueError (e : exn) : bool :=
  match exn_cls e with
  | ValueError | BinasciiError => true
  | _ => false
  end.

Definition is_TypeError (e : exn) : bool :=
  match exn_cls e with
  | TypeError => true
  | _ => false
  end.

(** The f-string that rebuilds an image block. *)
Definition image_block (alt_text image_format base64_data : str) : str :=
  lit "![" ++ alt_text ++ lit "](data:image/" ++ image_format
  ++ lit ";base64," ++ base64_data ++ lit ")".

(** ** The regular expression

    The pattern of [resize_base64_images], piece by piece:
      !  \[  ( [^\]]* )  \]  \(  data:image/  ( [^;]+ )  ;base64,  ( [^)]+ )  \)

    The matcher is the backtracking one of Python's [re]: a literal consumes
    its characters or fails; a greedy repetition of a negated class tries
    the longest run first and backs off one character at a time while the
    rest of the pattern fails. *)
Module Re.

Record re_match := mk_match
  { group0 : str ;   (* the whole match *)
    group1 : str ;
    group2 : str ;
    group3 : str }.

Section Engine.
Variable R : Type.

Fixpoint literal (l : str) (k : str -> option R) (s : str) : option R :=
  match l with
  | [] => k s
  | c :: l' =>
      match s with
      | x :: s' => if Ascii.eqb x c then literal l' k s' else None
      | [] => None
      end
  end.

(** A group [( [^c]* )]: greedy, captured. *)
Fixpoint star_not (c : ascii) (k : str -> str -> option R) (s : str)
  : option R :=
  match s with
  | x :: s' =>
      if Ascii.eqb x c then k [] s
      else match star_not c (fun cap rest => k (x :: cap) rest) s' with
           | Some r => Some r
           | None => k [] s
           end
  | [] => k [] s
  end.

(** A group [( [^c]+ )]: greedy, captured. *)
Definition plus_not (c : ascii) (k : str -> str -> option R) (s : str)
  : option R :=
  match s with
  | x :: s' =>
      if Ascii.eqb x c then None
      else star_not c (fun cap rest => k (x :: cap) rest) s'
  | [] => None
  end.

End Engine.

(** The text [s[start:end]] of a match that began at [s] and left [rest]. *)
Definition matched_text (s rest : str) : str :=
  firstn (List.length s - List.length rest)%nat s.

(** [pattern.match] at the current position: the groups and the text left
    after the match. *)
Definition match_here (s : str) : option (re_match * str) :=
  literal (lit "![")
   (star_not "]" (fun g1 =>
     literal (lit "](data:image/")
      (plus_not ";" (fun g2 =>
        literal (lit ";base64,")
         (plus_not ")" (fun g3 =>
           literal (lit ")")
            (fun rest =>
               Some (mk_match (matched_text s rest) g1 g2 g3, rest)))))))) s.

(** What [re.sub] sees while it scans: a character no match starts at, or a
    match. *)
Inductive token :=
| Chr (c : ascii)
| Hit (m : re_match).

(** The scan of [re.sub]: try the pattern at the current position; on a
    match emit it and go on after its end, otherwise keep the character and
    move one position to the right.  The pattern matches no empty text, so
    every step consumes input and [length s] steps always suffice. *)
Fixpoint scan (fuel : nat) (s : str) : list token :=
  match fuel with
  | O => []
  | S fuel' =>
      match s with
      | [] => []
      | c :: s' =>
          match match_here s with
          | Some (m, rest) => Hit m :: scan fuel' rest
          | None => Chr c :: scan fuel' s'
          end
      end
  end.

Definition tokens (s : str) : list token := scan (List.length s) s.

(** The text a token stands for in the scanned string. *)
Definition source (t : token) : str :=
  match t with
  | Chr c => [c]
  | Hit m => group0 m
  end.

(** [re.sub(pattern, repl, s)] with a callable [repl]: every match is
    replaced by what [repl] returns for it, everything else is copied; an
    exception raised by [repl] ends the substitution and propagates. *)
Fixpoint substitute (repl : re_match -> res str) (ts : list token)
  : res str :=
  match ts with
  | [] => Ok []
  | Chr c :: ts' => let* out := substitute repl ts' in Ok (c :: out)
  | Hit m :: ts' =>
      let* r := repl m in
      let* out := substitute repl ts' in
      Ok (r ++ out)
  end.

Definition sub (repl : re_match -> res str) (s : str) : res str :=
  substitute repl (tokens s).

(** The longest prefix without [c], and what follows it. *)
Fixpoint span (c : ascii) (s : str) : str * str :=
  match s with
  | x :: s' =>
      if Ascii.eqb x c then ([], s)
      else let '(a, b) := span c s' in (x :: a, b)
  | [] => ([], [])
  end.

(** A continuation that can only succeed on text starting with [c]. *)
Definition needs {R} (c : ascii) (k : str -> str -> option R) : Prop :=
  forall cap rest, hd_error rest <> Some c -> k cap rest = None.

Definition block_match (g1 g2 g3 : str) : re_match :=
  mk_match (image_block g1 g2 g3) g1 g2 g3.

(** What the three character classes and the two [+] ask of the groups. *)
Definition groups_ok (g1 g2 g3 : str) : Prop :=
  ~ In "]"%char g1 /\ ~ In ";"%char g2 /\ g2 <> [] /\
  ~ In ")"%char g3 /\ g3 <> [].

(** The pattern as one pass over the text, with no choice left. *)
Definition pipeline (whole s : str) : option (re_match * str) :=
  literal (lit "![")
    (fun s0 =>
       let '(g1, r1) := span "]" s0 in
       literal (lit "](data:image/")
         (fun s2 =>
            let '(g2, r3) := span ";" s2 in
            match g2 with
            | [] => None
            | _ :: _ =>
                literal (lit ";base64,")
                  (fun s4 =>
                     let '(g3, r5) := span ")" s4 in
                     match g3 with
                     | [] => None
                     | _ :: _ =>
                         literal (lit ")")
                           (fun rest =>
                              Some (mk_match (matched_text whole rest)
                                      g1 g2 g3, rest)) r5
                     end) r3
            end) r1) s.

End Re.

(** ** The pattern as an automaton

    One attempt of the pattern reads the text left to right and never
    looks back, so whether it succeeds is decided by a run of a small
    automaton. *)
Module Automaton.

Inductive state :=
| InLit1 (i : nat)        (* [i] characters of the first literal read *)
| InAlt
| InLit2 (i : nat)
| InFmt (seen : bool)     (* [seen]: the group is not empty *)
| InLit3 (i : nat)
| InPayload (seen : bool)
| Done
| Fail.

Definition lit1 : str := lit "![".
Definition lit2 : str := lit "](data:image/".
Definition lit3 : str := lit ";base64,".

(** Reading character [i] of a literal [l]. *)
Definition lit_step (l : str) (i : nat) (x : ascii)
    (more : nat -> state) (next : state) : state :=
  match nth_error l i with
  | Some c =>
      if Ascii.eqb x c then
        if Nat.eqb (S i) (List.length l) then next else more (S i)
      else Fail
  | None => Fail
  end.

Definition step (q : state) (x : ascii) : state :=
  match q with
  | InLit1 i => lit_step lit1 i x InLit1 InAlt
  | InAlt => if Ascii.eqb x "]" then InLit2 1 else InAlt
  | InLit2 i => lit_step lit2 i x InLit2 (InFmt false)
  | InFmt seen =>
      if Ascii.eqb x ";" then (if seen then InLit3 1 else Fail)
      else InFmt true
  | InLit3 i => lit_step lit3 i x InLit3 (InPayload false)
  | InPayload seen =>
      if Ascii.eqb x ")" then (if seen then Done else Fail)
      else InPayload true
  | Done => Done
  | Fail => Fail
  end.

Definition run (q : state) (s : str) : state := fold_left step s q.

Definition start : state := InLit1 0.

(** Once a "]" has been read the automaton is past the alt text for good. *)
Definition past_alt (q : state) : Prop :=
  match q with
  | InLit1 _ | InAlt => False
  | _ => True
  end.

(** In the payload, or over. *)
Definition settled (q : state) : Prop :=
  match q with
  | InPayload _ | Done | Fail => True
  | _ => False
  end.

End Automaton.

(** The scan of [re.sub], stated on the text: blocks are taken leftmost,
    one after the end of the other, and a character is kept only where no
    block starts. *)
Inductive scanned : str -> list Re.token -> Prop :=
| scanned_nil : scanned [] []
| scanned_hit g1 g2 g3 rest ts :
    Re.groups_ok g1 g2 g3 ->
    scanned rest ts ->
    scanned (image_block g1 g2 g3 ++ rest)
            (Re.Hit (Re.mk_match (image_block g1 g2 g3) g1 g2 g3) :: ts)
| scanned_chr c s ts :
    (forall g1 g2 g3 rest,
        Re.groups_ok g1 g2 g3 -> c :: s <> image_block g1 g2 g3 ++ rest) ->
    scanned s ts ->
    scanned (c :: s) (Re.Chr c :: ts).

(** [aligned stable s out]: [out] is [s] with the payload of every block
    the scan finds in [s] exchanged for a payload that makes a [stable]
    block again. *)
Inductive aligned (stable : Re.re_match -> Prop) : str -> str -> Prop :=
| aligned_nil : aligned stable [] []
| aligned_chr c s out :
    Re.match_here (c :: s) = None ->
    aligned stable s out ->
    aligned stable (c :: s) (c :: out)
| aligned_hit g1 g2 g3 g3' rest out :
    Re.groups_ok g1 g2 g3 ->
    Re.groups_ok g1 g2 g3' ->
    stable (Re.mk_match (image_block g1 g2 g3') g1 g2 g3') ->
    aligned stable rest out ->
    aligned stable (image_block g1 g2 g3 ++ rest)
                   (image_block g1 g2 g3' ++ out).

(** ** base64

    [b64encode] is the encoding of RFC 4648 with the standard alphabet and
    padding.  [b64decode] is [base64.b64decode(s)] on a [str] with the
    default [validate=False]: the text must be ASCII, and then
    [binascii.a2b_base64] runs in its lenient mode, which skips every
    character outside the alphabet and stops at a complete pad sequence. *)
Module Base64.

Definition byte_val (b : byte) : Z := Z.of_N (Byte.to_N b).

(** Store into an [unsigned char]. *)
Definition mk_byte (z : Z) : byte :=
  match Byte.of_N (Z.to_N (z mod 256)) with
  | Some b => b
  | None => x00
  end.

Definition char_val (c : ascii) : Z := Z.of_N (N_of_ascii c).

Definition table_b2a_base64 : str :=
  lit "ABCDEFGHIJKLMNOPQRSTUVWXYZabcdefghijklmnopqrstuvwxyz0123456789+/".

Definition BASE64_PAD : ascii := "="%char.

Definition b2a (i : Z) : ascii := nth (Z.to_nat i) table_b2a_base64 BASE64_PAD.

(** [table_a2b_base64]: the value of an alphabet character, [None] for
    every other character. *)
Definition a2b (c : ascii) : option Z :=
  let n := char_val c in
  if (65 <=? n) && (n <=? 90) then Some (n - 65)
  else if (97 <=? n) && (n <=? 122) then Some (n - 71)
  else if (48 <=? n) && (n <=? 57) then Some (n + 4)
  else if n =? 43 then Some 62
  else if n =? 47 then Some 63
  else None.

Fixpoint b64encode (data : bytes) : str :=
  match data with
  | [] => []
  | [x] =>
      let a := byte_val x in
      [ b2a (Z.shiftr a 2);
        b2a (Z.shiftl (Z.land a 3) 4);
        BASE64_PAD; BASE64_PAD ]
  | [x; y] =>
      let a := byte_val x in
      let b := byte_val y in
      [ b2a (Z.shiftr a 2);
        b2a (Z.lor (Z.shiftl (Z.land a 3) 4) (Z.shiftr b 4));
        b2a (Z.shiftl (Z.land b 15) 2);
        BASE64_PAD ]
  | x :: y :: z :: data' =>
      let a := byte_val x in
      let b := byte_val y in
      let c := byte_val z in
      b2a (Z.shiftr a 2)
      :: b2a (Z.lor (Z.shiftl (Z.land a 3) 4) (Z.shiftr b 4))
      :: b2a (Z.lor (Z.shiftl (Z.land b 15) 2) (Z.shiftr c 6))
      :: b2a (Z.land c 63)
      :: b64encode data'
  end.

Definition binascii_error (msg : string) : exn :=
  mk_exn BinasciiError (lit msg).

(** The loop of [binascii.a2b_base64] with [strict_mode] off.  [quad_pos]
    counts the alphabet characters of the current group of four, [leftchar]
    holds the bits not yet written, [pads] the pad characters seen since the
    last alphabet character. *)
Fixpoint a2b_loop (s : str) (quad_pos leftchar pads : Z) : res bytes :=
  match s with
  | [] =>
      if quad_pos =? 0 then Ok []
      else if quad_pos =? 1 then
        Raise (binascii_error
          "Invalid base64-encoded string: number of data characters cannot be 1 more than a multiple of 4")
      else Raise (binascii_error "Incorrect padding")
  | this_ch :: s' =>
      if Ascii.eqb this_ch BASE64_PAD then
        if (2 <=? quad_pos) && (4 <=? quad_pos + (pads + 1)) then Ok []
        else a2b_loop s' quad_pos leftchar
               (if 2 <=? quad_pos then pads + 1 else pads)
      else
        match a2b this_ch with
        | None => a2b_loop s' quad_pos leftchar pads
        | Some v =>
            if quad_pos =? 0 then a2b_loop s' 1 v 0
            else if quad_pos =? 1 then
              let* out := a2b_loop s' 2 (Z.land v 15) 0 in
              Ok (mk_byte (Z.lor (Z.shiftl leftchar 2) (Z.shiftr v 4)) :: out)
            else if quad_pos =? 2 then
              let* out := a2b_loop s' 3 (Z.land v 3) 0 in
              Ok (mk_byte (Z.lor (Z.shiftl leftchar 4) (Z.shiftr v 2)) :: out)
            else
              let* out := a2b_loop s' 0 0 0 in
              Ok (mk_byte (Z.lor (Z.shiftl leftchar 6) v) :: out)
        end
  end.

Definition is_ascii (c : ascii) : bool := char_val c <? 128.

Definition b64decode (s : str) : res bytes :=
  if forallb is_ascii s then a2b_loop s 0 0 0
  else Raise (mk_exn ValueError
                (lit "string argument should contain only ASCII characters")).

Definition range (n : nat) : list Z := map Z.of_nat (seq 0 n).

(** The four sextets of a group of three bytes. *)
Definition sextet0 (a : Z) : Z := Z.shiftr a 2.
Definition sextet1 (a b : Z) : Z := Z.lor (Z.shiftl (Z.land a 3) 4) (Z.shiftr b 4).
Definition sextet2 (b c : Z) : Z := Z.lor (Z.shiftl (Z.land b 15) 2) (Z.shiftr c 6).
Definition sextet3 (c : Z) : Z := Z.land c 63.

Definition is_sextet (v : Z) : bool := (0 <=? v) && (v <? 64).

(** The characters [b64encode] can produce. *)
Definition b64_char (c : ascii) : Prop := In c (BASE64_PAD :: table_b2a_base64).

End Base64.

(** ** Python numbers

    A Python [float] is an IEEE-754 binary64 value, here a [spec_float] with
    the operations of the Standard Library's executable specification. *)
Module PyFloat.

Definition prec : Z := 53.
Definition emax : Z := 1024.

Definition float := spec_float.

Definition mul (x y : float) : float := SFmul prec emax x y.

(** The literal [0.8]: the binary64 value nearest to 4/5. *)
Definition lit_0_8 : float := S754_finite false 7205759403792794 (-53).

(** [float(n)] for an [int], correctly rounded. *)
Definition of_int (n : Z) : res float :=
  match binary_normalize prec emax n 0 false with
  | S754_infinity _ =>
      Raise (mk_exn OverflowError (lit "int too large to convert to float"))
  | f => Ok f
  end.

(** [int(x)] for a [float]: truncation towards zero. *)
Definition to_int (x : float) : res Z :=
  match x with
  | S754_zero _ => Ok 0
  | S754_finite s m e =>
      Ok (cond_Zopp s (if 0 <=? e then Zpos m * 2 ^ e
                       else Zpos m / 2 ^ (- e)))
  | S754_infinity _ =>
      Raise (mk_exn OverflowError
               (lit "cannot convert float infinity to integer"))
  | S754_nan =>
      Raise (mk_exn ValueError (lit "cannot convert float NaN to integer"))
  end.

(** [n * x] with [n] an [int] and [x] a [float]. *)
Definition int_mul (n : Z) (x : float) : res float :=
  let* fn := of_int n in Ok (mul fn x).

End PyFloat.

(** ** Built-in string functions

    On ASCII text [str.upper], [str.lower] and [int] are written out.  On
    text with other characters they follow Unicode tables that are not
    reproduced here: there the callers take them as parameters. *)
Module Builtins.

Definition ascii_upper (c : ascii) : ascii :=
  let n := Base64.char_val c in
  if (97 <=? n) && (n <=? 122) then ascii_of_N (Z.to_N (n - 32)) else c.

Definition ascii_lower (c : ascii) : ascii :=
  let n := Base64.char_val c in
  if (65 <=? n) && (n <=? 90) then ascii_of_N (Z.to_N (n + 32)) else c.

Definition is_space (c : ascii) : bool :=
  let n := Base64.char_val c in
  ((9 <=? n) && (n <=? 13)) || ((28 <=? n) && (n <=? 32)).

Definition is_digit (c : ascii) : bool :=
  let n := Base64.char_val c in (48 <=? n) && (n <=? 57).

Definition digit_val (c : ascii) : Z := Base64.char_val c - 48.

Fixpoint lstrip (s : str) : str :=
  match s with
  | c :: s' => if is_space c then lstrip s' else s
  | [] => []
  end.

(** The digits after the first one; an underscore is accepted between two
    digits only.  Returns the value and the text not consumed. *)
Fixpoint digits (s : str) (acc : Z) : Z * str :=
  match s with
  | c :: s' =>
      if is_digit c then digits s' (10 * acc + digit_val c)
      else if Ascii.eqb c "_" then
        match s' with
        | d :: s'' =>
            if is_digit d then digits s'' (10 * acc + digit_val d)
            else (acc, s)
        | [] => (acc, s)
        end
      else (acc, s)
  | [] => (acc, [])
  end.

Definition invalid_literal : exn :=
  mk_exn ValueError (lit "invalid literal for int() with base 10").

(** [int(s)] for an ASCII [str]: optional blanks, an optional sign, decimal
    digits, optional blanks. *)
Definition int_of_ascii_str (s : str) : res Z :=
  let s1 := lstrip s in
  let '(negative, s2) :=
    match s1 with
    | "+"%char :: r => (false, r)
    | "-"%char :: r => (true, r)
    | _ => (false, s1)
    end in
  match s2 with
  | d :: r =>
      if is_digit d then
        let '(v, rest) := digits r (digit_val d) in
        if forallb is_space rest then Ok (if negative then - v else v)
        else Raise invalid_literal
      else Raise invalid_literal
  | [] => Raise invalid_literal
  end.

(** [needle in haystack] for two strings. *)
Fixpoint is_prefix (p s : str) : bool :=
  match p, s with
  | [], _ => true
  | a :: p', b :: s' => Ascii.eqb a b && is_prefix p' s'
  | _ :: _, [] => false
  end.

Fixpoint contains (needle haystack : str) : bool :=
  is_prefix needle haystack ||
  match haystack with
  | [] => false
  | _ :: h' => contains needle h'
  end.

End Builtins.

(** ** Pillow's resampling filters *)
Inductive Resampling := NEAREST | BOX | BILINEAR | HAMMING | BICUBIC | LANCZOS.

(** ** Calls into Pillow

    The body of [resize_image_match] runs in a monad that raises and that
    records, as ghost state, every call of [Image.resize] with its target
    size. *)
Module Logged.

Definition M (A : Type) : Type := list (Z * Z) * res A.

Definition ret {A} (a : A) : M A := ([], Ok a).

Definition lift {A} (r : res A) : M A := ([], r).

Definition bindM {A B} (c : M A) (k : A -> M B) : M B :=
  match c with
  | (l, Ok a) => let '(l', r) := k a in (l ++ l', r)
  | (l, Raise e) => (l, Raise e)
  end.

Definition calls {A} (c : M A) : list (Z * Z) := fst c.
Definition result {A} (c : M A) : res A := snd c.

End Logged.

Notation "'let+' x ':=' c 'in' k" := (Logged.bindM c (fun x => k))
  (at level 10, x name, c at level 100, k at level 200).

(** ** JSON values, requests and responses *)

#[local] Unset Elimination Schemes.
Inductive json :=
| JNull
| JBool (b : bool)
| JInt (n : Z)
| JFloat (x : PyFloat.float)
| JStr (s : str)
| JList (l : list json)
| JDict (d : list (str * json)).
#[local] Set Elimination Schemes.

(** A multipart file part ([werkzeug]'s [FileStorage]). *)
Record FileStorage := mk_file { filename : str ; file_content : bytes }.

(** [request.files] and [request.form] are multi-dicts: fields in the order
    received, a name possibly more than once, the first one found by
    indexing and by [get]. *)
Record upload_request := mk_upload
  { files : list (str * FileStorage) ;
    form : list (str * str) }.

(** The body of a [POST /convert_text] as [request.get_json()] returns it,
    or the exception it raises. *)
Record text_request := mk_text { get_json : res json }.

Record StreamInfo := mk_info
  { extension : option str ;
    mimetype : option json }.

Inductive body :=
| Text (s : str)
| Json (j : json).

Record response := mk_response { resp_body : body ; status : Z }.

(** What a handler asked of its two collaborators, in order. *)
Inductive call :=
| CallConvert (stream : bytes) (info : option StreamInfo)
              (keep_data_uris : option bool)
| CallShrink (markdown_content : str) (max_size_kb : Z).

Fixpoint lookup {A} (key : str) (d : list (str * A)) : option A :=
  match d with
  | [] => None
  | (k, v) :: d' => if str_eqb k key then Some v else lookup key d'
  end.

Definition get {A} (d : list (str * A)) (key : str) (default : A) : A :=
  match lookup key d with
  | Some v => v
  | None => default
  end.

Definition jsonify (d : list (string * json)) : body :=
  Json (JDict (map (fun kv => (lit (fst kv), snd kv)) d)).

Definition type_error (msg : string) : exn := mk_exn TypeError (lit msg).

(** [not data] *)
Definition falsy (j : json) : bool :=
  match j with
  | JNull => true
  | JBool b => negb b
  | JInt n => n =? 0
  | JFloat (S754_zero _) => true
  | JFloat _ => false
  | JStr s => match s with [] => true | _ => false end
  | JList l => match l with [] => true | _ => false end
  | JDict d => match d with [] => true | _ => false end
  end.

(** [key in data] for a string [key] *)
Definition json_contains (key : str) (data : json) : res bool :=
  match data with
  | JDict d => Ok (match lookup key d with Some _ => true | None => false end)
  | JList l =>
      Ok (existsb (fun j => match j with
                            | JStr s => str_eqb s key
                            | _ => false
                            end) l)
  | JStr s => Ok (Builtins.contains key s)
  | _ => Raise (type_error "argument is not iterable")
  end.

(** [data[key]] for a string [key], once [key in data] holds *)
Definition json_getitem (data : json) (key : str) : res json :=
  match data with
  | JDict d =>
      match lookup key d with
      | Some v => Ok v
      | None => Raise (mk_exn OtherException key)
      end
  | _ => Raise (type_error "indices must be integers")
  end.

(** [data.get(key, default)] *)
Definition json_get (data : json) (key : str) (default : json) : res json :=
  match data with
  | JDict d => Ok (get d key default)
  | _ => Raise (mk_exn AttributeError (lit "object has no attribute 'get'"))
  end.

(** ** The module

    Everything below is parameterised by the libraries the module imports. *)
Section Webserver.

(** Pillow: [Image.open] (on a [BytesIO] of the bytes), the [width] and
    [height] of an image, [Image.resize] and [Image.save] into a fresh
    buffer, whose contents it returns. *)
Variable image : Type.
Variable Image_open : bytes -> res image.
Variable width height : image -> Z.
Variable Image_resize : image -> Z * Z -> Resampling -> res image.
Variable Image_save :
  image -> forall (format : str) (quality : option Z) (optimize : bool),
  res bytes.

(** MarkItDown's [convert_stream], returning [result.text_content]. *)
Variable convert_stream :
  bytes -> option StreamInfo -> option bool -> res str.

(** [werkzeug.utils.secure_filename] and [os.path.splitext(...)[1]]. *)
Variable secure_filename : str -> str.
Variable splitext_ext : str -> str.

(** The built-ins on text that is not ASCII. *)
Variable upper_unicode : str -> str.
Variable lower_unicode : str -> str.
Variable int_unicode : str -> res Z.

Definition upper (s : str) : str :=
  if forallb Base64.is_ascii s then map Builtins.ascii_upper s
  else upper_unicode s.

Definition lower (s : str) : str :=
  if forallb Base64.is_ascii s then map Builtins.ascii_lower s
  else lower_unicode s.

(** [int(s)] for a [str] *)
Definition int_of_str (s : str) : res Z :=
  if forallb Base64.is_ascii s then Builtins.int_of_ascii_str s
  else int_unicode s.

(** [int(v)] for a JSON value *)
Definition int_of_json (v : json) : res Z :=
  match v with
  | JInt n => Ok n
  | JBool b => Ok (if b then 1 else 0)
  | JFloat x => PyFloat.to_int x
  | JStr s => int_of_str s
  | _ => Raise (type_error
           "int() argument must be a string, a bytes-like object or a real number")
  end.

(** *** resize_base64_images *)

(** [len(data) / 1024]: true division by a power of two, exact for every
    length below 2^53, so a rational. *)
Definition kb (data : bytes) : Q := len data # 1024.

Definition save_format_of (image_format : str) : str :=
  let save_format := upper image_format in
  if str_eqb save_format (lit "JPG") then lit "JPEG" else save_format.

Section Match.
Variable max_size_kb : Z.
Variable m : Re.re_match.

Let alt_text := Re.group1 m.
Let image_format := Re.group2 m.
Let base64_data := Re.group3 m.

Definition new_size (img : image) (scale_factor : PyFloat.float)
  : res (Z * Z) :=
  let* new_width := (let* x := PyFloat.int_mul (width img) scale_factor in
                     PyFloat.to_int x) in
  let* new_height := (let* x := PyFloat.int_mul (height img) scale_factor in
                      PyFloat.to_int x) in
  Ok (new_width, new_height).

(** [for _ in range(iterations)] from the given [scale_factor] on, then the
    [return match.group(0)] after the loop. *)
Fixpoint shrink_loop (img : image) (iterations : nat)
    (scale_factor : PyFloat.float) : Logged.M str :=
  match iterations with
  | O => Logged.ret (Re.group0 m)
  | S iterations' =>
      let+ size := Logged.lift (new_size img scale_factor) in
      let+ resized_image := ([size], Image_resize img size LANCZOS) in
      let save_format := save_format_of image_format in
      let+ new_image_data := Logged.lift
        (if str_eqb save_format (lit "JPEG")
         then Image_save resized_image save_format (Some 85) true
         else Image_save resized_image save_format None true) in
      let new_size_kb := kb new_image_data in
      if Qle_bool new_size_kb (inject_Z max_size_kb) then
        let new_base64_data := Base64.b64encode new_image_data in
        Logged.ret (image_block alt_text image_format new_base64_data)
      else
        shrink_loop img iterations' (PyFloat.mul scale_factor PyFloat.lit_0_8)
  end.

Definition max_iterations : nat := 5.

(** The body of the [try]. *)
Definition resize_image_try : Logged.M str :=
  let+ image_data := Logged.lift (Base64.b64decode base64_data) in
  let size_kb := kb image_data in
  if Qle_bool size_kb (inject_Z max_size_kb) then Logged.ret (Re.group0 m)
  else
    let+ img := Logged.lift (Image_open image_data) in
    shrink_loop img max_iterations PyFloat.lit_0_8.

(** [resize_image_match]: the [try] with its [except Exception], which
    prints the error and returns the match as it was. *)
Definition resize_image_match : res str :=
  match Logged.result resize_image_try with
  | Ok r => Ok r
  | Raise _ => Ok (Re.group0 m)
  end.

End Match.

Definition resize_base64_images (PIL_AVAILABLE : bool)
    (markdown_content : str) (max_size_kb : Z) : res str :=
  if negb PIL_AVAILABLE then Ok markdown_content
  else Re.sub (resize_image_match max_size_kb) markdown_content.

(** *** The endpoints

    A handler returns the calls it made to the converter and to
    [resize_base64_images], in order, and its response. *)

Definition error_response (msg : string) : response :=
  mk_response (jsonify [("error"%string, JStr (lit msg))]) 400.

(** The outer [except Exception as e] of both handlers. *)
Definition server_error (e : exn) : response :=
  mk_response
    (jsonify [("success"%string, JBool false);
              ("error"%string, JStr (exn_msg e))]) 500.

Definition nonempty (s : str) : bool :=
  match s with [] => false | _ => true end.

(** [str.encode('utf-8')]: the text is kept as its UTF-8 bytes already. *)
Definition encode_utf8 (s : str) : bytes := map byte_of_ascii s.

Definition convert_file (PIL_AVAILABLE : bool) (request : upload_request)
  : list call * response :=
  match lookup (lit "file") (files request) with
  | None => ([], error_response "No file provided")
  | Some file =>
      if str_eqb (filename file) [] then
        ([], error_response "No file selected")
      else
        let keep_data_uris :=
          str_eqb (lower (get (form request) (lit "keep_data_uris")
                              (lit "false"))) (lit "true") in
        match int_of_str (get (form request) (lit "max_size_kb") (lit "200"))
        with
        | Raise e =>
            if is_ValueError e then
              ([], error_response "max_size_kb must be a valid integer")
            else ([], server_error e)
        | Ok max_size_kb =>
            let file_stream := file_content file in
            let original_filename := secure_filename (filename file) in
            let stream_info :=
              if nonempty original_filename then
                let extension := lower (splitext_ext original_filename) in
                if nonempty extension then Some (mk_info (Some extension) None)
                else None
              else None in
            let c1 := CallConvert file_stream stream_info
                        (Some keep_data_uris) in
            match convert_stream file_stream stream_info (Some keep_data_uris)
            with
            | Raise e => ([c1], server_error e)
            | Ok text_content =>
                let c2 := CallShrink text_content max_size_kb in
                match resize_base64_images PIL_AVAILABLE text_content
                        max_size_kb with
                | Raise e => ([c1; c2], server_error e)
                | Ok markdown_content =>
                    ([c1; c2], mk_response (Text markdown_content) 200)
                end
            end
        end
  end.

Definition convert_text (PIL_AVAILABLE : bool) (request : text_request)
  : list call * response :=
  match
    let* data := get_json request in
    let* has_text := (if falsy data then Ok false
                 else json_contains (lit "text") data) in
    Ok (data, has_text)
  with
  | Raise e => ([], server_error e)
  | Ok (data, false) => ([], error_response "No text content provided")
  | Ok (data, true) =>
      match
        let* text_content := json_getitem data (lit "text") in
        let* content_type := json_get data (lit "content_type")
                          (JStr (lit "text/plain")) in
        Ok (text_content, content_type)
      with
      | Raise e => ([], server_error e)
      | Ok (text_content, content_type) =>
          match
            let* v := json_get data (lit "max_size_kb") (JInt 200) in
            int_of_json v
          with
          | Raise e =>
              if is_ValueError e || is_TypeError e then
                ([], error_response "max_size_kb must be a valid integer")
              else ([], server_error e)
          | Ok max_size_kb =>
              match text_content with
              | JStr text =>
                  let text_stream := encode_utf8 text in
                  let stream_info := mk_info None (Some content_type) in
                  let c1 := CallConvert text_stream (Some stream_info) None in
                  match convert_stream text_stream (Some stream_info) None
                  with
                  | Raise e => ([c1], server_error e)
                  | Ok result =>
                      let c2 := CallShrink result max_size_kb in
                      match resize_base64_images PIL_AVAILABLE result
                              max_size_kb with
                      | Raise e => ([c1; c2], server_error e)
                      | Ok markdown_content =>
                          ([c1; c2], mk_response (Text markdown_content) 200)
                      end
                  end
              | _ =>
                  ([], server_error
                         (mk_exn AttributeError
                            (lit "object has no attribute 'encode'")))
              end
          end
      end
  end.

(** *** Vocabulary of the properties *)

(** What a token becomes in the output of [resize_base64_images]. *)
Definition rendered (max_size_kb : Z) (t : Re.token) : str :=
  match t with
  | Re.Chr c => [c]
  | Re.Hit m =>
      match resize_image_match max_size_kb m with
      | Ok r => r
      | Raise _ => Re.group0 m
      end
  end.

(** The quality argument of the call of [save]. *)
Definition quality_of (save_format : str) : option Z :=
  if str_eqb save_format (lit "JPEG") then Some 85 else None.

(** [data] is what one iteration of the loop encoded from [img]: a resized
    copy saved in the save format of the tag. *)
Definition encoded_from (img : image) (image_format : str) (data : bytes)
  : Prop :=
  exists size resized,
    Image_resize img size LANCZOS = Ok resized /\
    Image_save resized (save_format_of image_format)
      (quality_of (save_format_of image_format)) true
    = Ok data.

(** The scale factor of attempt [i + 1]: [0.8], then multiplied by [0.8]
    once per earlier attempt, in binary64. *)
Definition scale_at (i : nat) : PyFloat.float :=
  Nat.iter i (fun x => PyFloat.mul x PyFloat.lit_0_8) PyFloat.lit_0_8.

(** [floor(width * 0.8^i)] by [floor(height * 0.8^i)], in exact
    arithmetic. *)
Definition target_size (img : image) (i : nat) : Z * Z :=
  (width img * 4 ^ Z.of_nat i / 5 ^ Z.of_nat i,
   height img * 4 ^ Z.of_nat i / 5 ^ Z.of_nat i).

(** A block the callback leaves alone. *)
Definition stable_block (max_size_kb : Z) (m : Re.re_match) : Prop :=
  rendered max_size_kb (Re.Hit m) = Re.group0 m.

End Webserver.

(** ** Two small codecs to run the module on

    [Toy] stores an image as its two dimensions, one byte each, followed by
    one zero byte per pixel.  [Blank] is a codec whose encoder writes
    nothing at all. *)
Module Toy.
Import Base64.

Definition image : Type := (byte * byte)%type.

Definition open (data : bytes) : res image :=
  match data with
  | w :: h :: _ => Ok (w, h)
  | _ => Raise (mk_exn OtherException (lit "cannot identify image file"))
  end.

Definition width (img : image) : Z := byte_val (fst img).
Definition height (img : image) : Z := byte_val (snd img).

Definition resize (img : image) (size : Z * Z) (filter : Resampling)
  : res image :=
  if (0 <? fst size) && (0 <? snd size)
  then Ok (mk_byte (fst size), mk_byte (snd size))
  else Raise (mk_exn ValueError (lit "height and width must be > 0")).

Definition picture (w h : Z) : bytes :=
  mk_byte w :: mk_byte h :: repeat x00 (Z.to_nat (w * h)).

Definition save (img : image) (format : str) (quality : option Z)
    (optimize : bool) : res bytes :=
  Ok (picture (width img) (height img)).

(** The built-ins on text that is not ASCII are not needed on the examples. *)
Definition unicode (s : str) : str := s.
Definition int_unicode (s : str) : res Z := Raise Builtins.invalid_literal.

(** A converter that returns the stream as text. *)
Definition convert (stream : bytes) (info : option StreamInfo)
    (keep_data_uris : option bool) : res str :=
  Ok (map ascii_of_byte stream).

Definition shrink : bool -> str -> Z -> res str :=
  resize_base64_images open width height resize save unicode.

Definition callback : Z -> Re.re_match -> res str :=
  resize_image_match open width height resize save unicode.

Definition try_body : Z -> Re.re_match -> Logged.M str :=
  resize_image_try open width height resize save unicode.

Definition render : Z -> Re.token -> str :=
  rendered open width height resize save unicode.

Definition handle_file : bool -> upload_request -> list call * response :=
  convert_file open width height resize save convert unicode unicode
    unicode unicode int_unicode.

Definition handle_text : bool -> text_request -> list call * response :=
  convert_text open width height resize save convert unicode int_unicode.

(** A document with one image of [w] by [h] pixels. *)
Definition payload (w h : Z) : str := b64encode (picture w h).

Definition the_match (w h : Z) : Re.re_match :=
  Re.mk_match (image_block (lit "x") (lit "jpg") (payload w h))
    (lit "x") (lit "jpg") (payload w h).

Definition doc (w h : Z) : str :=
  lit "a" ++ image_block (lit "x") (lit "jpg") (payload w h) ++ lit "b".

(** A block whose payload is not base64. *)
Definition broken : Re.re_match :=
  Re.mk_match (image_block (lit "x") (lit "png") (lit "A"))
    (lit "x") (lit "png") (lit "A").

(** Two uploads without a file to convert. *)
Definition no_file : upload_request := mk_upload [] [].

Definition unnamed : FileStorage := mk_file [] [].

Definition unnamed_file : upload_request :=
  mk_upload [(lit "file", unnamed)] [].

End Toy.

Module Blank.

Definition open (data : bytes) : res unit := Ok tt.
Definition side (img : unit) : Z := 10.
Definition resize (img : unit) (size : Z * Z) (filter : Resampling)
  : res unit := Ok tt.
Definition save (img : unit) (format : str) (quality : option Z)
    (optimize : bool) : res bytes := Ok [].

Definition shrink : bool -> str -> Z -> res str :=
  resize_base64_images open side side resize save Toy.unicode.

Definition doc : str :=
  lit "![a](data:image/x![b;base64,AQE=)](data:image/png;base64,AQE=)".

End Blank.

(** ** Requests to run the endpoints on *)
Module Demo.


(** The extension of a file name: from its last dot on. *)
Fixpoint extension (s : str) : str :=
  match s with
  | [] => []
  | c :: s' =>
      match extension s' with
      | [] => if Ascii.eqb c "." then s else []
      | e => e
      end
  end.

Definition handle_file (convert : bytes -> option StreamInfo -> option bool
                                  -> res str)
  : bool -> upload_request -> list call * response :=
  convert_file Toy.open Toy.width Toy.height Toy.resize Toy.save convert
    Toy.unicode extension Toy.unicode Toy.unicode Toy.int_unicode.

Definition handle_text (convert : bytes -> option StreamInfo -> option bool
                                  -> res str)
  : bool -> text_request -> list call * response :=
  convert_text Toy.open Toy.width Toy.height Toy.resize Toy.save convert
    Toy.unicode Toy.int_unicode.

Definition notes : FileStorage := mk_file (lit "notes.md") (Toy.picture 1 1).

(** An upload of [notes.md] with the given form fields. *)
Definition upload (fields : list (str * str)) : upload_request :=
  mk_upload [(lit "file", notes)] fields.

(** A JSON body with the text [hi] and the given other members. *)
Definition members (others : list (str * json)) : list (str * json) :=
  (lit "text", JStr (lit "hi")) :: others.

Definition post (others : list (str * json)) : text_request :=
  mk_text (Ok (JDict (members others))).

(** The picture of [Toy.doc 40 40] once opened, the copies the loop has made
    of it, and what the encoder writes for them. *)
Definition original : Toy.image := (Base64.mk_byte 40, Base64.mk_byte 40).

Definition resized (j : nat) : Toy.image :=
  let size := target_size Toy.width Toy.height original (S j) in
  (Base64.mk_byte (fst size), Base64.mk_byte (snd size)).

Definition encoding (j : nat) : bytes :=
  Toy.picture (Toy.width (resized j)) (Toy.height (resized j)).

End Demo.

(** What a token shows of itself when the payload is left out. *)
Definition outline (t : Re.token) : ascii + str * str :=
  match t with
  | Re.Chr c => inl c
  | Re.Hit m => inr (Re.group1 m, Re.group2 m)
  end.

(** * Properties *)

(** ** The pattern matches deterministically *)
Module ReFacts.
Import Re.

Lemma span_app c s : fst (span c s) ++ snd (span c s) = s.
Proof.
  induction s as [|x s IH]; simpl; [reflexivity|].
  destruct (Ascii.eqb x c); [reflexivity|].
  destruct (span c s) as [a b]; simpl in *. now rewrite IH.
Qed.

Lemma span_notin c s : ~ In c (fst (span c s)).
Proof.
  induction s as [|x s IH]; simpl; [tauto|].
  destruct (Ascii.eqb_spec x c) as [->|Hne]; simpl; [tauto|].
  destruct (span c s) as [a b]; simpl in *. intros [H|H]; [congruence|tauto].
Qed.

Lemma span_rest c s :
  snd (span c s) = [] \/ exists r, snd (span c s) = c :: r.
Proof.
  induction s as [|x s IH]; simpl; [now left|].
  destruct (Ascii.eqb_spec x c) as [->|Hne]; simpl; [right; eauto|].
  destruct (span c s) as [a b]; simpl in *. exact IH.
Qed.

Lemma span_run c a rest :
  ~ In c a -> span c (a ++ c :: rest) = (a, c :: rest).
Proof.
  induction a as [|x a IH]; simpl; intros H.
  - now rewrite Ascii.eqb_refl.
  - destruct (Ascii.eqb_spec x c) as [->|Hne]; [tauto|].
    rewrite IH by tauto. reflexivity.
Qed.

Lemma literal_app {R} l (k : str -> option R) s :
  literal l k (l ++ s) = k s.
Proof.
  induction l as [|c l IH]; simpl; [reflexivity|].
  now rewrite Ascii.eqb_refl.
Qed.

Lemma literal_app_eq {R} l (k : str -> option R) s s' :
  s = l ++ s' -> literal l k s = k s'.
Proof. intros ->. apply literal_app. Qed.

Lemma literal_inv {R} l (k : str -> option R) s r :
  literal l k s = Some r -> exists rest, s = l ++ rest /\ k rest = Some r.
Proof.
  revert s; induction l as [|c l IH]; simpl; intros s H.
  - now exists s.
  - destruct s as [|x s]; [discriminate|].
    destruct (Ascii.eqb_spec x c) as [->|Hne]; [|discriminate].
    destruct (IH _ H) as (rest & -> & Hk). now exists rest.
Qed.

Lemma literal_needs {R} c l (k : str -> str -> option R) :
  needs c (fun cap => literal (c :: l) (k cap)).
Proof.
  intros cap rest H; simpl.
  destruct rest as [|x rest]; [reflexivity|].
  destruct (Ascii.eqb_spec x c) as [->|Hne]; [|reflexivity].
  now elim H.
Qed.

Lemma needs_cons {R} c x (k : str -> str -> option R) :
  needs c k -> needs c (fun cap rest => k (x :: cap) rest).
Proof. intros H cap rest Hr. now apply H. Qed.

Lemma literal_ext {R} l (k1 k2 : str -> option R) s :
  (forall s', k1 s' = k2 s') -> literal l k1 s = literal l k2 s.
Proof.
  intros H. revert s; induction l as [|c l IH]; simpl; intros s; [apply H|].
  destruct s as [|x s]; [reflexivity|].
  destruct (Ascii.eqb x c); [apply IH|reflexivity].
Qed.

(** Backing off never helps: a greedy run of a negated class followed by
    the excluded character itself has one way to match. *)
Lemma star_not_greedy {R} c (k : str -> str -> option R) s :
  needs c k -> star_not c k s = k (fst (span c s)) (snd (span c s)).
Proof.
  revert k; induction s as [|x s IH]; intros k Hk; simpl; [reflexivity|].
  destruct (Ascii.eqb_spec x c) as [->|Hne]; [reflexivity|].
  rewrite (IH _ (needs_cons x Hk)).
  destruct (span c s) as [a b]; simpl.
  rewrite (Hk [] (x :: s)) by (simpl; congruence).
  now destruct (k (x :: a) b).
Qed.

Lemma plus_not_greedy {R} c (k : str -> str -> option R) s :
  needs c k ->
  plus_not c k s =
  match fst (span c s) with
  | [] => None
  | _ :: _ => k (fst (span c s)) (snd (span c s))
  end.
Proof.
  intros Hk. destruct s as [|x s]; simpl; [reflexivity|].
  destruct (Ascii.eqb_spec x c) as [->|Hne]; [reflexivity|].
  rewrite (star_not_greedy (k := fun cap rest => k (x :: cap) rest));
    [|now apply needs_cons].
  now destruct (span c s) as [a b].
Qed.

Lemma matched_text_app b rest : matched_text (b ++ rest) rest = b.
Proof.
  unfold matched_text. rewrite length_app, Nat.add_sub.
  now rewrite firstn_app, Nat.sub_diag, firstn_all, app_nil_r.
Qed.

Lemma match_here_step s : match_here s = pipeline s s.
Proof.
  unfold match_here, pipeline.
  apply literal_ext; intros s0.
  rewrite star_not_greedy by apply literal_needs.
  destruct (span "]" s0) as [g1 r1]; simpl fst; simpl snd.
  apply literal_ext; intros s2.
  rewrite plus_not_greedy by apply literal_needs.
  destruct (span ";" s2) as [g2 r3]; simpl fst; simpl snd.
  destruct g2 as [|x2 g2]; [reflexivity|].
  apply literal_ext; intros s4.
  rewrite plus_not_greedy by apply literal_needs.
  destruct (span ")" s4) as [g3 r5]; simpl fst; simpl snd.
  now destruct g3.
Qed.

Lemma block_assoc g1 g2 g3 rest :
  image_block g1 g2 g3 ++ rest =
  lit "![" ++ (g1 ++ lit "](data:image/" ++ (g2 ++ lit ";base64," ++
    (g3 ++ lit ")" ++ rest))).
Proof. unfold image_block. now rewrite <- !app_assoc. Qed.

Theorem match_here_sound s m rest :
  match_here s = Some (m, rest) ->
  exists g1 g2 g3,
    groups_ok g1 g2 g3 /\ m = block_match g1 g2 g3 /\
    s = image_block g1 g2 g3 ++ rest.
Proof.
  rewrite match_here_step. unfold pipeline. intros H.
  apply literal_inv in H as (s0 & Hs & H).
  pose proof (span_app "]" s0) as A1. pose proof (span_notin "]" s0) as N1.
  destruct (span "]" s0) as [g1 r1]; simpl in A1, N1.
  apply literal_inv in H as (s2 & Hr1 & H).
  pose proof (span_app ";" s2) as A2. pose proof (span_notin ";" s2) as N2.
  destruct (span ";" s2) as [g2 r3]; simpl in A2, N2.
  destruct g2 as [|x2 g2]; [discriminate|].
  apply literal_inv in H as (s4 & Hr3 & H).
  pose proof (span_app ")" s4) as A3. pose proof (span_notin ")" s4) as N3.
  destruct (span ")" s4) as [g3 r5]; simpl in A3, N3.
  destruct g3 as [|x3 g3]; [discriminate|].
  apply literal_inv in H as (rest' & Hr5 & H).
  injection H as Hm <-.
  assert (E : s = image_block g1 (x2 :: g2) (x3 :: g3) ++ rest').
  { rewrite block_assoc, Hs, <- A1, Hr1, <- A2, Hr3, <- A3, Hr5.
    reflexivity. }
  exists g1, (x2 :: g2), (x3 :: g3). repeat split; try assumption;
    try discriminate.
  rewrite <- Hm, E, matched_text_app. reflexivity.
Qed.

Lemma pipeline_complete whole g1 g2 g3 rest :
  groups_ok g1 g2 g3 ->
  pipeline whole (image_block g1 g2 g3 ++ rest) =
  Some (mk_match (matched_text whole rest) g1 g2 g3, rest).
Proof.
  intros (N1 & N2 & E2 & N3 & E3).
  rewrite block_assoc. unfold pipeline.
  rewrite literal_app.
  cbn [lit list_ascii_of_string app].
  rewrite span_run by assumption.
  cbn [literal Ascii.eqb Bool.eqb].
  rewrite span_run by assumption.
  destruct g2 as [|x2 g2]; [congruence|].
  cbn [literal Ascii.eqb Bool.eqb].
  rewrite span_run by assumption.
  destruct g3 as [|x3 g3]; [congruence|].
  reflexivity.
Qed.

Theorem match_here_complete g1 g2 g3 rest :
  groups_ok g1 g2 g3 ->
  match_here (image_block g1 g2 g3 ++ rest) = Some (block_match g1 g2 g3, rest).
Proof.
  intros H. rewrite match_here_step, (pipeline_complete _ _ H).
  now rewrite matched_text_app.
Qed.

Lemma match_here_shorter s m rest :
  match_here s = Some (m, rest) -> (List.length rest < List.length s)%nat.
Proof.
  intros H. apply match_here_sound in H as (g1 & g2 & g3 & _ & _ & ->).
  rewrite length_app. unfold image_block. rewrite !length_app. simpl. lia.
Qed.

Lemma match_here_group0 s m rest :
  match_here s = Some (m, rest) -> s = group0 m ++ rest.
Proof.
  intros H. apply match_here_sound in H as (g1 & g2 & g3 & _ & -> & ->).
  reflexivity.
Qed.

(** *** The scan *)

Lemma scan_fuel n s :
  (List.length s <= n)%nat -> scan n s = tokens s.
Proof.
  unfold tokens. remember (List.length s) as k eqn:Hk.
  revert n s Hk. induction k as [k IH] using lt_wf_ind. intros n s Hk Hn.
  destruct s as [|c s]; simpl in Hk; subst k.
  - now destruct n.
  - destruct n as [|n]; [simpl in Hn; lia|]. simpl.
    destruct (match_here (c :: s)) as [[m rest]|] eqn:E.
    + pose proof (match_here_shorter _ E) as L. simpl in L.
      rewrite (IH (List.length rest)) by (simpl in *; lia).
      now rewrite (IH (List.length rest) ltac:(lia) (List.length s)) by lia.
    + rewrite (IH (List.length s)) by (simpl in *; lia). reflexivity.
Qed.

Lemma tokens_nil : tokens [] = [].
Proof. reflexivity. Qed.

Lemma tokens_hit s m rest :
  match_here s = Some (m, rest) -> tokens s = Hit m :: tokens rest.
Proof.
  intros H. pose proof (match_here_shorter _ H) as L.
  destruct s as [|c s]; [simpl in L; lia|].
  unfold tokens at 1. simpl. rewrite H.
  now rewrite scan_fuel by (simpl in L; lia).
Qed.

Lemma tokens_chr c s :
  match_here (c :: s) = None -> tokens (c :: s) = Chr c :: tokens s.
Proof. intros H. unfold tokens at 1. simpl. now rewrite H. Qed.

(** Induction along the scan. *)
Lemma scan_ind (P : str -> Prop) :
  P [] ->
  (forall s m rest, match_here s = Some (m, rest) -> P rest -> P s) ->
  (forall c s, match_here (c :: s) = None -> P s -> P (c :: s)) ->
  forall s, P s.
Proof.
  intros Hnil Hhit Hchr s.
  remember (List.length s) as k eqn:Hk.
  revert s Hk. induction k as [k IH] using lt_wf_ind. intros s Hk.
  destruct s as [|c s]; [exact Hnil|].
  destruct (match_here (c :: s)) as [[m rest]|] eqn:E.
  - apply (Hhit _ _ _ E). apply (IH (List.length rest)); [|reflexivity].
    subst k. exact (match_here_shorter _ E).
  - apply (Hchr _ _ E). apply (IH (List.length s)); [|reflexivity].
    subst k. simpl. lia.
Qed.

(** The tokens spell the scanned text. *)
Lemma tokens_source s : flat_map source (tokens s) = s.
Proof.
  induction s as [| s m rest E IH | c s E IH] using scan_ind.
  - reflexivity.
  - rewrite (tokens_hit _ E). simpl. rewrite IH.
    symmetry. exact (match_here_group0 _ E).
  - rewrite (tokens_chr _ _ E). simpl. now rewrite IH.
Qed.

End ReFacts.

(** ** base64: decoding inverts encoding *)
Module Base64Facts.
Import Base64.

Lemma range_In n z : 0 <= z < Z.of_nat n -> In z (range n).
Proof.
  intros H. unfold range. apply in_map_iff. exists (Z.to_nat z).
  split; [lia|]. apply in_seq. lia.
Qed.

(** A property of one or two bytes checked on all of them. *)
Lemma all_bytes (test : Z -> bool) :
  forallb test (range 256) = true ->
  forall a, 0 <= a < 256 -> test a = true.
Proof.
  intros H a Ha. rewrite forallb_forall in H. apply H. now apply range_In.
Qed.

Lemma all_byte_pairs (test : Z -> Z -> bool) :
  forallb (fun a => forallb (test a) (range 256)) (range 256) = true ->
  forall a b, 0 <= a < 256 -> 0 <= b < 256 -> test a b = true.
Proof.
  intros H a b Ha Hb.
  apply (all_bytes (fun a => forallb (test a) (range 256)) H) in Ha.
  now apply (all_bytes _ Ha).
Qed.

Lemma byte_val_range x : 0 <= byte_val x < 256.
Proof.
  unfold byte_val. pose proof (Byte.to_N_bounded x). lia.
Qed.

Lemma mk_byte_val x : mk_byte (byte_val x) = x.
Proof.
  unfold mk_byte. pose proof (byte_val_range x) as R.
  rewrite Z.mod_small by exact R.
  unfold byte_val. now rewrite N2Z.id, Byte.of_to_N.
Qed.

Lemma mk_byte_eq z x : z mod 256 = byte_val x -> mk_byte z = x.
Proof.
  intros H. rewrite <- (mk_byte_val x). unfold mk_byte.
  rewrite H. now rewrite (Z.mod_small _ _ (byte_val_range x)).
Qed.

Lemma sextet0_ok a : 0 <= a < 256 -> is_sextet (sextet0 a) = true.
Proof. apply (all_bytes (fun a => is_sextet (sextet0 a))). now vm_compute. Qed.

Lemma sextet1_ok a b :
  0 <= a < 256 -> 0 <= b < 256 -> is_sextet (sextet1 a b) = true.
Proof.
  apply (all_byte_pairs (fun a b => is_sextet (sextet1 a b))). now vm_compute.
Qed.

Lemma sextet2_ok b c :
  0 <= b < 256 -> 0 <= c < 256 -> is_sextet (sextet2 b c) = true.
Proof.
  apply (all_byte_pairs (fun a b => is_sextet (sextet2 a b))). now vm_compute.
Qed.

Lemma sextet3_ok c : 0 <= c < 256 -> is_sextet (sextet3 c) = true.
Proof. apply (all_bytes (fun a => is_sextet (sextet3 a))). now vm_compute. Qed.

Lemma first_byte a b :
  0 <= a < 256 -> 0 <= b < 256 ->
  Z.lor (Z.shiftl (sextet0 a) 2) (Z.shiftr (sextet1 a b) 4) mod 256 = a.
Proof.
  intros Ha Hb. apply Z.eqb_eq. revert a b Ha Hb.
  apply (all_byte_pairs
    (fun a b => Z.lor (Z.shiftl (sextet0 a) 2) (Z.shiftr (sextet1 a b) 4)
                mod 256 =? a)).
  now vm_compute.
Qed.

Lemma left_after_1 a b :
  0 <= a < 256 -> 0 <= b < 256 ->
  Z.land (sextet1 a b) 15 = Z.shiftr b 4.
Proof.
  intros Ha Hb. apply Z.eqb_eq. revert a b Ha Hb.
  apply (all_byte_pairs
    (fun a b => Z.land (sextet1 a b) 15 =? Z.shiftr b 4)).
  now vm_compute.
Qed.

Lemma second_byte b c :
  0 <= b < 256 -> 0 <= c < 256 ->
  Z.lor (Z.shiftl (Z.shiftr b 4) 4) (Z.shiftr (sextet2 b c) 2) mod 256 = b.
Proof.
  intros Hb Hc. apply Z.eqb_eq. revert b c Hb Hc.
  apply (all_byte_pairs
    (fun b c => Z.lor (Z.shiftl (Z.shiftr b 4) 4) (Z.shiftr (sextet2 b c) 2)
                mod 256 =? b)).
  now vm_compute.
Qed.

Lemma third_byte b c :
  0 <= b < 256 -> 0 <= c < 256 ->
  Z.lor (Z.shiftl (Z.land (sextet2 b c) 3) 6) (sextet3 c) mod 256 = c.
Proof.
  intros Hb Hc. apply Z.eqb_eq. revert b c Hb Hc.
  apply (all_byte_pairs
    (fun b c => Z.lor (Z.shiftl (Z.land (sextet2 b c) 3) 6) (sextet3 c)
                mod 256 =? c)).
  now vm_compute.
Qed.

(** The same with the zero bits that pad a short last group. *)
Lemma sextet1_0 a : sextet1 a 0 = Z.shiftl (Z.land a 3) 4.
Proof. unfold sextet1. now rewrite Z.shiftr_0_l, Z.lor_0_r. Qed.

Lemma sextet2_0 b : sextet2 b 0 = Z.shiftl (Z.land b 15) 2.
Proof. unfold sextet2. now rewrite Z.shiftr_0_l, Z.lor_0_r. Qed.

Lemma a2b_b2a_nat n :
  (n < 64)%nat ->
  a2b (b2a (Z.of_nat n)) = Some (Z.of_nat n) /\
  Ascii.eqb (b2a (Z.of_nat n)) BASE64_PAD = false.
Proof.
  intros L.
  do 64 (destruct n as [|n]; [vm_compute; split; reflexivity|]). lia.
Qed.

Lemma sextet_nat v : is_sextet v = true -> v = Z.of_nat (Z.to_nat v) /\ (Z.to_nat v < 64)%nat.
Proof. unfold is_sextet. lia. Qed.

Lemma a2b_b2a v : is_sextet v = true -> a2b (b2a v) = Some v.
Proof.
  intros H. destruct (sextet_nat v H) as [E L]. rewrite E.
  apply a2b_b2a_nat, L.
Qed.

Lemma b2a_not_pad v :
  is_sextet v = true -> Ascii.eqb (b2a v) BASE64_PAD = false.
Proof.
  intros H. destruct (sextet_nat v H) as [E L]. rewrite E.
  apply a2b_b2a_nat, L.
Qed.

Lemma b2a_char v : b64_char (b2a v).
Proof.
  unfold b64_char, b2a.
  destruct (nth_in_or_default (Z.to_nat v) table_b2a_base64 BASE64_PAD)
    as [H | ->]; [now right | now left].
Qed.

Lemma b64encode_chars data : Forall b64_char (b64encode data).
Proof.
  assert (P : b64_char BASE64_PAD) by now left.
  induction data as [data IH] using (induction_ltof1 _ (@List.length byte)).
  destruct data as [|x [|y [|z data]]]; cbn [b64encode].
  - apply Forall_nil.
  - do 2 (apply Forall_cons; [apply b2a_char|]).
    do 2 (apply Forall_cons; [exact P|]). apply Forall_nil.
  - do 3 (apply Forall_cons; [apply b2a_char|]).
    apply Forall_cons; [exact P|]. apply Forall_nil.
  - do 4 (apply Forall_cons; [apply b2a_char|]).
    apply IH. unfold ltof. cbn [List.length]. lia.
Qed.

Lemma b64_char_ascii c : b64_char c -> is_ascii c = true.
Proof.
  unfold b64_char. intros H.
  assert (F : forallb is_ascii (BASE64_PAD :: table_b2a_base64) = true)
    by (vm_compute; reflexivity).
  rewrite forallb_forall in F. now apply F.
Qed.

Lemma b64encode_ascii data : forallb is_ascii (b64encode data) = true.
Proof.
  apply forallb_forall. intros c Hc.
  apply b64_char_ascii.
  pose proof (b64encode_chars data) as F. rewrite Forall_forall in F.
  now apply F.
Qed.

Lemma dec_first x b :
  0 <= b < 256 ->
  mk_byte (Z.lor (Z.shiftl (sextet0 (byte_val x)) 2)
                 (Z.shiftr (sextet1 (byte_val x) b) 4)) = x.
Proof. intros H. apply mk_byte_eq, first_byte; [apply byte_val_range|exact H]. Qed.

Lemma dec_second y c :
  0 <= c < 256 ->
  mk_byte (Z.lor (Z.shiftl (Z.shiftr (byte_val y) 4) 4)
                 (Z.shiftr (sextet2 (byte_val y) c) 2)) = y.
Proof. intros H. apply mk_byte_eq, second_byte; [apply byte_val_range|exact H]. Qed.

Lemma dec_third b z :
  0 <= b < 256 ->
  mk_byte (Z.lor (Z.shiftl (Z.land (sextet2 b (byte_val z)) 3) 6)
                 (sextet3 (byte_val z))) = z.
Proof. intros H. apply mk_byte_eq, third_byte; [exact H|apply byte_val_range]. Qed.

(** One step of the decoding loop on an alphabet character, for each
    position in the group of four. *)
Lemma a2b_loop_0 v s lc p :
  is_sextet v = true -> a2b_loop (b2a v :: s) 0 lc p = a2b_loop s 1 v 0.
Proof.
  intros H. cbn [a2b_loop]. now rewrite (b2a_not_pad _ H), (a2b_b2a _ H).
Qed.

Lemma a2b_loop_1 v s lc p :
  is_sextet v = true ->
  a2b_loop (b2a v :: s) 1 lc p =
  let* out := a2b_loop s 2 (Z.land v 15) 0 in
  Ok (mk_byte (Z.lor (Z.shiftl lc 2) (Z.shiftr v 4)) :: out).
Proof.
  intros H. cbn [a2b_loop]. now rewrite (b2a_not_pad _ H), (a2b_b2a _ H).
Qed.

Lemma a2b_loop_2 v s lc p :
  is_sextet v = true ->
  a2b_loop (b2a v :: s) 2 lc p =
  let* out := a2b_loop s 3 (Z.land v 3) 0 in
  Ok (mk_byte (Z.lor (Z.shiftl lc 4) (Z.shiftr v 2)) :: out).
Proof.
  intros H. cbn [a2b_loop]. now rewrite (b2a_not_pad _ H), (a2b_b2a _ H).
Qed.

Lemma a2b_loop_3 v s lc p :
  is_sextet v = true ->
  a2b_loop (b2a v :: s) 3 lc p =
  let* out := a2b_loop s 0 0 0 in
  Ok (mk_byte (Z.lor (Z.shiftl lc 6) v) :: out).
Proof.
  intros H. cbn [a2b_loop]. now rewrite (b2a_not_pad _ H), (a2b_b2a _ H).
Qed.

Lemma a2b_loop_roundtrip data : a2b_loop (b64encode data) 0 0 0 = Ok data.
Proof.
  induction data as [data IH] using (induction_ltof1 _ (@List.length byte)).
  destruct data as [|x [|y [|z data]]].
  - reflexivity.
  - pose proof (byte_val_range x) as Rx.
    assert (R0 : 0 <= 0 < 256) by lia.
    cbn [b64encode]. rewrite <- sextet1_0.
    fold (sextet0 (byte_val x)).
    rewrite a2b_loop_0 by now apply sextet0_ok.
    rewrite a2b_loop_1 by now apply sextet1_ok.
    rewrite dec_first by assumption.
    reflexivity.
  - pose proof (byte_val_range x) as Rx. pose proof (byte_val_range y) as Ry.
    assert (R0 : 0 <= 0 < 256) by lia.
    cbn [b64encode]. rewrite <- sextet2_0.
    fold (sextet0 (byte_val x)) (sextet1 (byte_val x) (byte_val y)).
    rewrite a2b_loop_0 by now apply sextet0_ok.
    rewrite a2b_loop_1 by now apply sextet1_ok.
    rewrite a2b_loop_2 by now apply sextet2_ok.
    rewrite left_after_1 by assumption.
    rewrite dec_first by assumption.
    rewrite dec_second by assumption.
    reflexivity.
  - pose proof (byte_val_range x) as Rx. pose proof (byte_val_range y) as Ry.
    pose proof (byte_val_range z) as Rz.
    cbn [b64encode].
    fold (sextet0 (byte_val x)) (sextet1 (byte_val x) (byte_val y))
         (sextet2 (byte_val y) (byte_val z)) (sextet3 (byte_val z)).
    rewrite a2b_loop_0 by now apply sextet0_ok.
    rewrite a2b_loop_1 by now apply sextet1_ok.
    rewrite a2b_loop_2 by now apply sextet2_ok.
    rewrite a2b_loop_3 by now apply sextet3_ok.
    rewrite IH by (unfold ltof; cbn [List.length]; lia).
    cbn [bind]. rewrite left_after_1 by assumption.
    rewrite dec_first by assumption.
    rewrite dec_second by assumption.
    rewrite dec_third by assumption.
    reflexivity.
Qed.

(** [b64decode(b64encode(data)) == data] *)
Theorem b64decode_b64encode data : b64decode (b64encode data) = Ok data.
Proof.
  unfold b64decode. rewrite b64encode_ascii. apply a2b_loop_roundtrip.
Qed.

End Base64Facts.

(** ** The automaton decides the pattern *)
Module AutomatonFacts.
Import Re ReFacts Automaton.

Lemma run_app q s t : run q (s ++ t) = run (run q s) t.
Proof. apply fold_left_app. Qed.

Lemma run_cons q x s : run q (x :: s) = run (step q x) s.
Proof. reflexivity. Qed.

Lemma run_Done s : run Done s = Done.
Proof. induction s; simpl; auto. Qed.

Lemma run_Fail s : run Fail s = Fail.
Proof. induction s; simpl; auto. Qed.

Lemma run_alt g s :
  ~ In "]"%char g -> run InAlt (g ++ "]"%char :: s) = run (InLit2 1) s.
Proof.
  induction g as [|x g IH]; intros N; [reflexivity|].
  cbn [app]. rewrite run_cons. cbn [step].
  destruct (Ascii.eqb_spec x "]") as [->|_]; [elim N; now left|].
  apply IH. intros H. apply N. now right.
Qed.

Lemma run_fmt_more g s :
  ~ In ";"%char g -> run (InFmt true) (g ++ ";"%char :: s) = run (InLit3 1) s.
Proof.
  induction g as [|x g IH]; intros N; [reflexivity|].
  cbn [app]. rewrite run_cons. cbn [step].
  destruct (Ascii.eqb_spec x ";") as [->|_]; [elim N; now left|].
  apply IH. intros H. apply N. now right.
Qed.

Lemma run_fmt g s :
  ~ In ";"%char g -> g <> [] ->
  run (InFmt false) (g ++ ";"%char :: s) = run (InLit3 1) s.
Proof.
  destruct g as [|x g]; intros N E; [congruence|].
  cbn [app]. rewrite run_cons. cbn [step].
  destruct (Ascii.eqb_spec x ";") as [->|_]; [elim N; now left|].
  apply run_fmt_more. intros H. apply N. now right.
Qed.

Lemma run_payload_more seen g s :
  ~ In ")"%char g -> (seen = true \/ g <> []) ->
  run (InPayload seen) (g ++ ")"%char :: s) = Done.
Proof.
  revert seen. induction g as [|x g IH]; intros seen N E.
  - destruct E as [->|E]; [|congruence]. cbn. apply run_Done.
  - cbn [app run fold_left step].
    destruct (Ascii.eqb_spec x ")") as [->|_]; [elim N; now left|].
    apply IH; [|now left]. intros H. apply N. now right.
Qed.

(** A block is accepted, whatever follows it. *)
Lemma run_block g1 g2 g3 rest :
  groups_ok g1 g2 g3 -> run start (image_block g1 g2 g3 ++ rest) = Done.
Proof.
  intros (N1 & N2 & E2 & N3 & E3).
  rewrite block_assoc.
  cbn [lit list_ascii_of_string app].
  unfold start. cbn [run fold_left]. cbn.
  change (fold_left step ?s ?q) with (run q s).
  rewrite run_alt by assumption.
  cbn [run fold_left]. cbn.
  change (fold_left step ?s ?q) with (run q s).
  rewrite run_fmt by assumption.
  cbn [run fold_left]. cbn.
  change (fold_left step ?s ?q) with (run q s).
  apply run_payload_more; [assumption|now right].
Qed.

Lemma inv_payload seen s :
  run (InPayload seen) s = Done ->
  exists g rest,
    s = g ++ ")"%char :: rest /\ ~ In ")"%char g /\ (seen = true \/ g <> []).
Proof.
  revert seen. induction s as [|x s IH]; intros seen H; [discriminate|].
  rewrite run_cons in H. cbn [step] in H.
  destruct (Ascii.eqb_spec x ")") as [->|Nx].
  - destruct seen; [|now rewrite run_Fail in H].
    exists [], s. repeat split; [tauto|now left].
  - destruct (IH true H) as (g & rest & -> & N & _).
    exists (x :: g), rest. repeat split.
    + intros [E|I]; [congruence|tauto].
    + right. discriminate.
Qed.

Lemma inv_fmt seen s :
  run (InFmt seen) s = Done ->
  exists g rest,
    s = g ++ ";"%char :: rest /\ ~ In ";"%char g /\
    (seen = true \/ g <> []) /\ run (InLit3 1) rest = Done.
Proof.
  revert seen. induction s as [|x s IH]; intros seen H; [discriminate|].
  rewrite run_cons in H. cbn [step] in H.
  destruct (Ascii.eqb_spec x ";") as [->|Nx].
  - destruct seen; [|now rewrite run_Fail in H].
    exists [], s. repeat split; [tauto|now left|exact H].
  - destruct (IH true H) as (g & rest & -> & N & _ & R).
    exists (x :: g), rest. repeat split.
    + intros [E|I]; [congruence|tauto].
    + right. discriminate.
    + exact R.
Qed.

Lemma inv_alt s :
  run InAlt s = Done ->
  exists g rest,
    s = g ++ "]"%char :: rest /\ ~ In "]"%char g /\
    run (InLit2 1) rest = Done.
Proof.
  induction s as [|x s IH]; intros H; [discriminate|].
  rewrite run_cons in H. cbn [step] in H.
  destruct (Ascii.eqb_spec x "]") as [->|Nx].
  - exists [], s. repeat split; [tauto|exact H].
  - destruct (IH H) as (g & rest & -> & N & R).
    exists (x :: g), rest. repeat split; [|exact R].
    intros [E|I]; [congruence|tauto].
Qed.

(** Read one character of a literal in a run that ends in [Done]. *)
Ltac read_char H :=
  match type of H with
  | run _ ?s = Done =>
      let x := fresh "x" in
      destruct s as [|x s]; [discriminate H|];
      rewrite run_cons in H;
      cbn [step lit_step nth_error lit1 lit2 lit3 lit
           list_ascii_of_string List.length Nat.eqb] in H;
      match type of H with
      | context [Ascii.eqb x ?c] =>
          destruct (Ascii.eqb_spec x c) as [->|_];
          [|rewrite run_Fail in H; discriminate H]
      end
  end.

Lemma inv_lit1 s :
  run start s = Done -> exists rest, s = lit "![" ++ rest /\ run InAlt rest = Done.
Proof.
  unfold start. intros H. do 2 read_char H. now exists s.
Qed.

Lemma inv_lit2 s :
  run (InLit2 1) s = Done ->
  exists rest, s = lit "(data:image/" ++ rest /\ run (InFmt false) rest = Done.
Proof. intros H. do 12 read_char H. now exists s. Qed.

Lemma inv_lit3 s :
  run (InLit3 1) s = Done ->
  exists rest, s = lit "base64," ++ rest /\ run (InPayload false) rest = Done.
Proof. intros H. do 7 read_char H. now exists s. Qed.

(** The automaton accepts exactly the texts that start with a block. *)
Lemma run_inv s :
  run start s = Done ->
  exists g1 g2 g3 rest, groups_ok g1 g2 g3 /\ s = image_block g1 g2 g3 ++ rest.
Proof.
  intros H.
  apply inv_lit1 in H as (s0 & -> & H).
  apply inv_alt in H as (g1 & s1 & -> & N1 & H).
  apply inv_lit2 in H as (s2 & -> & H).
  apply inv_fmt in H as (g2 & s3 & -> & N2 & E2 & H).
  apply inv_lit3 in H as (s4 & -> & H).
  apply inv_payload in H as (g3 & rest & -> & N3 & E3).
  exists g1, g2, g3, rest. split.
  - repeat split; try assumption.
    + destruct E2 as [E2|E2]; [discriminate|exact E2].
    + destruct E3 as [E3|E3]; [discriminate|exact E3].
  - rewrite block_assoc. reflexivity.
Qed.

Theorem match_here_run s :
  match_here s <> None <-> run start s = Done.
Proof.
  split.
  - destruct (match_here s) as [[m rest]|] eqn:E; [|congruence]. intros _.
    apply match_here_sound in E as (g1 & g2 & g3 & G & _ & ->).
    now apply run_block.
  - intros H. apply run_inv in H as (g1 & g2 & g3 & rest & G & ->).
    now rewrite match_here_complete.
Qed.

Lemma lit_step_past l i x more next :
  (forall j, past_alt (more j)) -> past_alt next ->
  past_alt (lit_step l i x more next).
Proof.
  intros M N. unfold lit_step.
  destruct (nth_error l i); [|exact I].
  destruct (Ascii.eqb x a); [|exact I].
  destruct (Nat.eqb _ _); [exact N|apply M].
Qed.

Lemma step_past q x : past_alt q -> past_alt (step q x).
Proof.
  destruct q; cbn [past_alt step]; try tauto; intros _.
  - apply lit_step_past; [intros j|]; exact I.
  - destruct (Ascii.eqb x ";"); [destruct seen|]; exact I.
  - apply lit_step_past; [intros j|]; exact I.
  - destruct (Ascii.eqb x ")"); [destruct seen|]; exact I.
Qed.

Lemma run_past q s : past_alt q -> past_alt (run q s).
Proof.
  revert q. induction s as [|x s IH]; intros q H; [exact H|].
  cbn [run fold_left]. apply IH, step_past, H.
Qed.

Lemma step_bracket q : past_alt (step q "]").
Proof.
  destruct q; cbn [step]; try exact I.
  - unfold lit_step. destruct i as [|[|i]]; cbn; try exact I.
    destruct i; exact I.
  - apply lit_step_past; [intros j|]; exact I.
  - apply lit_step_past; [intros j|]; exact I.
Qed.

Lemma run_base64 q : past_alt q -> settled (run q (lit ";base64,")).
Proof.
  destruct q; cbn [past_alt]; try tauto; intros _.
  - (* InLit2: no ";" in the second literal *)
    cbn [lit list_ascii_of_string]. rewrite run_cons. cbn [step].
    assert (E : lit_step lit2 i ";" InLit2 (InFmt false) = Fail).
    { unfold lit_step.
      do 13 (destruct i as [|i]; [reflexivity|]). destruct i; reflexivity. }
    rewrite E, run_Fail. exact I.
  - destruct seen; exact I.
  - (* InLit3 *)
    destruct i as [|i].
    + exact I.
    + cbn [lit list_ascii_of_string]. rewrite run_cons. cbn [step].
      assert (E : lit_step lit3 (S i) ";" InLit3 (InPayload false) = Fail).
      { unfold lit_step.
        do 7 (destruct i as [|i]; [reflexivity|]). destruct i; reflexivity. }
      rewrite E, run_Fail. exact I.
Qed.

Lemma run_settled q g rest :
  settled q -> ~ In ")"%char g -> g <> [] ->
  run q (g ++ ")"%char :: rest) = match q with Fail => Fail | _ => Done end.
Proof.
  destruct q; cbn [settled]; try tauto; intros _ N E.
  - apply run_payload_more; [exact N|now right].
  - apply run_Done.
  - apply run_Fail.
Qed.

(** Whether an attempt succeeds on a text that runs into the payload of a
    block does not depend on that payload, nor on what follows the block. *)
Lemma run_payload_irrelevant u v g g' rest rest' :
  ~ In ")"%char g -> g <> [] -> ~ In ")"%char g' -> g' <> [] ->
  run start (u ++ "]"%char :: v ++ lit ";base64," ++ g ++ ")"%char :: rest)
  = run start (u ++ "]"%char :: v ++ lit ";base64," ++ g' ++ ")"%char :: rest').
Proof.
  intros N E N' E'.
  assert (S : settled (run start (u ++ "]"%char :: v ++ lit ";base64,"))).
  { rewrite run_app, run_cons, run_app. apply run_base64, run_past, step_bracket. }
  replace (u ++ "]"%char :: v ++ lit ";base64," ++ g ++ ")"%char :: rest)
    with ((u ++ "]"%char :: v ++ lit ";base64,") ++ g ++ ")"%char :: rest)
    by (rewrite <- !app_assoc; cbn [app]; now rewrite <- !app_assoc).
  replace (u ++ "]"%char :: v ++ lit ";base64," ++ g' ++ ")"%char :: rest')
    with ((u ++ "]"%char :: v ++ lit ";base64,") ++ g' ++ ")"%char :: rest')
    by (rewrite <- !app_assoc; cbn [app]; now rewrite <- !app_assoc).
  rewrite !(run_app _ (u ++ _)).
  now rewrite !run_settled.
Qed.

End AutomatonFacts.

Unset Implicit Arguments.

(** ** binary64 multiplication of an image dimension by a scale factor *)
Module FloatFacts.
Import PyFloat.

Lemma pow2_succ d : 0 < d -> 2 ^ d = 2 * 2 ^ (d - 1).
Proof.
  intros H. replace d with (Z.succ (d - 1)) at 1 by lia.
  apply Z.pow_succ_r. lia.
Qed.

Lemma digits_step d m x :
  0 < d -> 2 ^ (d - 1) <= m < 2 ^ d -> x = 2 * m \/ x = 2 * m + 1 ->
  2 ^ (Z.succ d - 1) <= x < 2 ^ Z.succ d.
Proof.
  intros Hd IH Hx.
  replace (Z.succ d - 1) with d by lia.
  rewrite Z.pow_succ_r by lia.
  rewrite (pow2_succ d Hd) in *. lia.
Qed.

Lemma digits2_bounds m :
  2 ^ (Zpos (digits2_pos m) - 1) <= Zpos m < 2 ^ Zpos (digits2_pos m).
Proof.
  induction m as [m IH | m IH |]; cbn [digits2_pos].
  - rewrite Pos2Z.inj_succ.
    apply (digits_step _ (Zpos m)); [lia|exact IH|right; lia].
  - rewrite Pos2Z.inj_succ.
    apply (digits_step _ (Zpos m)); [lia|exact IH|left; lia].
  - cbn. lia.
Qed.

(** The number of binary digits is determined by the bounds. *)
Lemma digits2_unique m d :
  2 ^ (d - 1) <= Zpos m < 2 ^ d -> 0 < d -> Zpos (digits2_pos m) = d.
Proof.
  intros [L U] Hd. pose proof (digits2_bounds m) as [L' U'].
  set (d' := Zpos (digits2_pos m)) in *.
  assert (Hd' : 0 < d') by (unfold d'; lia).
  destruct (Z.lt_trichotomy d' d) as [H|[H|H]]; [|exact H|].
  - assert (2 ^ d' <= 2 ^ (d - 1)) by (apply Z.pow_le_mono_r; lia). lia.
  - assert (2 ^ d <= 2 ^ (d' - 1)) by (apply Z.pow_le_mono_r; lia). lia.
Qed.

Lemma shr_1_m mrs : 0 <= shr_m mrs -> shr_m (shr_1 mrs) = shr_m mrs / 2.
Proof.
  destruct mrs as [m r s]. cbn [shr_m]. intros H.
  destruct m as [|[p|p|]|p]; cbn [shr_1 shr_m]; try lia.
  - reflexivity.
  - rewrite Pos2Z.inj_xI. apply Z.div_unique with 1; lia.
  - rewrite Pos2Z.inj_xO. apply Z.div_unique with 0; lia.
  - reflexivity.
Qed.

Lemma pow2_xO p : 2 ^ Zpos p~0 = 2 ^ Zpos p * 2 ^ Zpos p.
Proof.
  replace (Zpos p~0) with (Zpos p + Zpos p) by lia.
  apply Z.pow_add_r; lia.
Qed.

Lemma pow2_xI p : 2 ^ Zpos p~1 = 2 * (2 ^ Zpos p * 2 ^ Zpos p).
Proof.
  replace (Zpos p~1) with (Z.succ (Zpos p + Zpos p)) by lia.
  rewrite Z.pow_succ_r, Z.pow_add_r by lia. reflexivity.
Qed.

Lemma iter_shr_m p mrs :
  0 <= shr_m mrs ->
  shr_m (iter_pos shr_1 p mrs) = shr_m mrs / 2 ^ Zpos p.
Proof.
  revert mrs. induction p as [p IH | p IH |]; intros mrs H; cbn [iter_pos].
  - assert (H1 : 0 <= shr_m (shr_1 mrs))
      by (rewrite shr_1_m by exact H; apply Z.div_pos; lia).
    assert (H2 : 0 <= shr_m (iter_pos shr_1 p (shr_1 mrs)))
      by (rewrite IH by exact H1; apply Z.div_pos; lia).
    rewrite IH by exact H2. rewrite IH by exact H1. rewrite shr_1_m by exact H.
    rewrite !Z.div_div by lia. now rewrite pow2_xI.
  - assert (H2 : 0 <= shr_m (iter_pos shr_1 p mrs))
      by (rewrite IH by exact H; apply Z.div_pos; lia).
    rewrite IH by exact H2. rewrite IH by exact H.
    rewrite !Z.div_div by lia. now rewrite pow2_xO.
  - rewrite shr_1_m by exact H. reflexivity.
Qed.

Lemma round_nearest_even_cases m l :
  round_nearest_even m l = m \/ round_nearest_even m l = m + 1.
Proof.
  destruct l as [|[| |]]; cbn; try tauto. destruct (Z.even m); tauto.
Qed.

Lemma shr_fexp_exact m e :
  2 ^ 52 <= Zpos m < 2 ^ 53 -> -1074 <= e ->
  shr_fexp prec emax (Zpos m) e loc_Exact
  = (Build_shr_record (Zpos m) false false, e).
Proof.
  intros B He. unfold shr_fexp, Zdigits2.
  rewrite (digits2_unique m 53) by (cbn in *; lia).
  unfold fexp, emin, prec, emax.
  replace (Z.max (53 + e - 53) (3 - 1024 - 53) - e) with 0 by lia.
  reflexivity.
Qed.

Lemma shr_fexp_carry e :
  -1075 <= e ->
  shr_fexp prec emax (2 ^ 53) e loc_Exact
  = (Build_shr_record (2 ^ 52) false false, e + 1).
Proof.
  intros He. unfold shr_fexp.
  change (Zdigits2 (2 ^ 53)) with 54.
  unfold fexp, emin, prec, emax.
  replace (Z.max (54 + e - 53) (3 - 1024 - 53) - e) with 1 by lia.
  reflexivity.
Qed.

(** Rounding a product of two 53-bit mantissas: the mantissa is cut to 53
    bits and, at most, moved up by one. *)
Lemma round_product m e :
  2 ^ 104 <= Zpos m < 2 ^ 106 -> -900 <= e <= 0 ->
  exists k mr,
    (k = 52 \/ k = 53) /\
    2 ^ (52 + k) <= Zpos m < 2 ^ (53 + k) /\
    (mr = Zpos m / 2 ^ k \/ mr = Zpos m / 2 ^ k + 1) /\
    binary_round_aux prec emax false (Zpos m) e loc_Exact
    = if mr <? 2 ^ 53 then S754_finite false (Z.to_pos mr) (e + k)
      else S754_finite false (Z.to_pos (2 ^ 52)) (e + k + 1).
Proof.
  intros B He.
  assert (K : exists k, (k = 52 \/ k = 53) /\
                        2 ^ (52 + k) <= Zpos m < 2 ^ (53 + k)).
  { destruct (Z.lt_ge_cases (Zpos m) (2 ^ 105)).
    - exists 52. split; [now left|]. cbn in *. lia.
    - exists 53. split; [now right|]. cbn in *. lia. }
  destruct K as (k & Hk & Bk).
  assert (Hk0 : 0 < k) by lia.
  assert (D : Zpos (digits2_pos m) = 53 + k).
  { apply digits2_unique; [|lia].
    replace (53 + k - 1) with (52 + k) by lia. exact Bk. }
  set (q := Zpos m / 2 ^ k).
  assert (Q : 2 ^ 52 <= q < 2 ^ 53).
  { unfold q. rewrite !(Z.pow_add_r 2 _ k) in Bk by lia.
    assert (P : 0 < 2 ^ k) by (apply Z.pow_pos_nonneg; lia).
    split.
    - apply Z.div_le_lower_bound; lia.
    - apply Z.div_lt_upper_bound; lia. }
  unfold binary_round_aux.
  assert (S1 : shr_fexp prec emax (Zpos m) e loc_Exact
               = (iter_pos shr_1 (Z.to_pos k)
                    (Build_shr_record (Zpos m) false false), e + k)).
  { unfold shr_fexp, Zdigits2. rewrite D. unfold fexp, emin, prec, emax.
    replace (Z.max (53 + k + e - 53) (3 - 1024 - 53) - e) with k by lia.
    cbn [shr_record_of_loc]. unfold shr.
    destruct k as [|pk|pk]; try lia. reflexivity. }
  rewrite S1.
  set (mrs := iter_pos shr_1 (Z.to_pos k)
                (Build_shr_record (Zpos m) false false)).
  assert (M : shr_m mrs = q).
  { unfold mrs. rewrite iter_shr_m by (cbn; lia).
    cbn [shr_m]. unfold q. now rewrite Z2Pos.id by lia. }
  rewrite M.
  set (mr := round_nearest_even q (loc_of_shr_record mrs)).
  exists k, mr. split; [exact Hk|]. split; [exact Bk|].
  split; [apply round_nearest_even_cases|].
  assert (R : mr = q \/ mr = q + 1) by apply round_nearest_even_cases.
  clearbody mr. clear M mrs S1.
  destruct (Z.ltb_spec mr (2 ^ 53)) as [L|L].
  - destruct mr as [|pm|pm]; try lia.
    rewrite shr_fexp_exact by lia.
    cbn [shr_m Z.to_pos]. unfold prec, emax.
    destruct (Z.leb_spec (e + k) (1024 - 53)); [reflexivity|lia].
  - assert (E : mr = 2 ^ 53) by lia. rewrite E.
    rewrite shr_fexp_carry by lia. cbn [shr_m]. unfold prec, emax.
    change (2 ^ 52) with (Zpos (Z.to_pos (2 ^ 52))) at 1.
    cbv iota beta.
    destruct (Z.leb_spec (e + k + 1) (1024 - 53)); [reflexivity|lia].
Qed.

Lemma iter_xO p d : Zpos (Pos.iter xO p d) = Zpos p * 2 ^ Zpos d.
Proof.
  induction d as [|d IH] using Pos.peano_ind.
  - cbn. lia.
  - rewrite Pos.iter_succ, Pos2Z.inj_succ, Z.pow_succ_r by lia.
    change (Zpos (Pos.iter xO p d)~0) with (2 * Zpos (Pos.iter xO p d)).
    rewrite IH. ring.
Qed.

Lemma round_exact m e :
  2 ^ 52 <= Zpos m < 2 ^ 53 -> -1074 <= e <= 971 ->
  binary_round_aux prec emax false (Zpos m) e loc_Exact
  = S754_finite false m e.
Proof.
  intros B He. unfold binary_round_aux.
  rewrite shr_fexp_exact by lia.
  cbn [shr_m loc_of_shr_record round_nearest_even].
  rewrite shr_fexp_exact by lia. cbn [shr_m]. unfold prec, emax.
  destruct (Z.leb_spec e (1024 - 53)); [reflexivity|lia].
Qed.

(** [float(n)] for a positive [int] below 2^31: the mantissa is [n] moved
    up to 53 bits. *)
Lemma of_int_small n :
  0 < n < 2 ^ 31 ->
  exists mz s,
    of_int n = Ok (S754_finite false mz (- s)) /\
    Zpos mz = n * 2 ^ s /\ 2 ^ 52 <= Zpos mz < 2 ^ 53 /\ 22 <= s <= 52.
Proof.
  intros Hn. destruct n as [|p|p]; try lia.
  pose proof (digits2_bounds p) as D.
  set (dn := Zpos (digits2_pos p)) in *.
  assert (Hd : 1 <= dn <= 31).
  { split; [unfold dn; lia|].
    destruct (Z.le_gt_cases dn 31) as [H|H]; [exact H|].
    assert (2 ^ 31 <= 2 ^ (dn - 1)) by (apply Z.pow_le_mono_r; lia). lia. }
  set (s := 53 - dn).
  assert (Hs : 22 <= s <= 52) by (unfold s; lia).
  exists (Pos.iter xO p (Z.to_pos s)), s.
  assert (Mz : Zpos (Pos.iter xO p (Z.to_pos s)) = Zpos p * 2 ^ s)
    by (rewrite iter_xO, Z2Pos.id by lia; reflexivity).
  assert (B : 2 ^ 52 <= Zpos (Pos.iter xO p (Z.to_pos s)) < 2 ^ 53).
  { rewrite Mz.
    assert (P : 0 < 2 ^ s) by (apply Z.pow_pos_nonneg; lia).
    assert (E52 : 2 ^ 52 = 2 ^ (dn - 1) * 2 ^ s).
    { rewrite <- Z.pow_add_r by lia. f_equal. unfold s. lia. }
    assert (E53 : 2 ^ 53 = 2 ^ dn * 2 ^ s).
    { rewrite <- Z.pow_add_r by lia. f_equal. unfold s. lia. }
    rewrite E52, E53.
    split.
    - apply Z.mul_le_mono_nonneg_r; lia.
    - apply Z.mul_lt_mono_pos_r; lia. }
  split; [|split; [exact Mz|split; [exact B|exact Hs]]].
  unfold of_int, binary_normalize, binary_round.
  assert (F : fexp prec emax (Zpos (digits2_pos p) + 0) = - s).
  { fold dn. unfold fexp, emin, prec, emax, s. lia. }
  rewrite F. unfold shl_align.
  replace (- s - 0) with (Zneg (Z.to_pos s))
    by (rewrite <- Pos2Z.opp_pos, Z2Pos.id; lia).
  rewrite round_exact by lia. reflexivity.
Qed.

(** The integer arithmetic behind a scaled dimension: a mantissa cut to 53
    bits and moved up by at most one still truncates to the exact
    quotient. *)
Lemma scaled_quotient n P W M T K J q mr A B c :
  0 < n -> W = n * P -> W < 2 ^ 53 -> 2 ^ 22 <= P ->
  0 < K <= 2 ^ 53 -> 0 < J -> J * K = P * T -> 2 ^ 53 <= T ->
  0 < M -> q = W * M / K -> (mr = q \/ mr = q + 1) ->
  0 <= A -> 0 < B <= 3125 -> c = M * B - A * T -> 0 <= c <= 2 ^ 20 ->
  mr / J = n * A / B.
Proof.
  intros Hn HW WU HP HK HJ HJK HT HM Hq Hmr HA HB Hc Hcb.
  set (N := n * A / B).
  assert (HN : 0 <= N) by (apply Z.div_pos; nia).
  pose proof (Z.mul_div_le (n * A) B ltac:(lia)) as R1.
  pose proof (Z.mul_succ_div_gt (n * A) B ltac:(lia)) as R2.
  fold N in R1, R2.
  set (r := n * A - B * N).
  assert (Hr : 0 <= r < B) by (unfold r; lia).
  assert (EA : n * A = N * B + r) by (unfold r; lia).
  pose proof (Z.mul_div_le (W * M) K ltac:(lia)) as Q1.
  pose proof (Z.mul_succ_div_gt (W * M) K ltac:(lia)) as Q2.
  rewrite <- Hq in Q1, Q2.
  assert (H3 : W * M * B = (N * B + r) * (J * K) + W * c).
  { rewrite <- EA, HJK, HW, Hc. ring. }
  assert (HW0 : 0 < W) by nia.
  assert (KB : 0 < K * B) by nia.
  assert (JK : 0 < J * K) by nia.
  (* lower bound *)
  assert (L : N * J <= q).
  { assert (L1 : N * J * (K * B) < (q + 1) * (K * B)).
    { replace (N * J * (K * B)) with (N * B * (J * K)) by ring.
      replace ((q + 1) * (K * B)) with (K * Z.succ q * B) by ring.
      assert (W * M * B < K * Z.succ q * B)
        by (apply Z.mul_lt_mono_pos_r; lia).
      assert (0 <= r * (J * K)) by nia.
      assert (0 <= W * c) by nia.
      nia. }
    apply Z.mul_lt_mono_pos_r in L1; lia. }
  (* upper bound *)
  assert (U : q + 1 < (N + 1) * J).
  { assert (U1 : q * (K * B) < ((N + 1) * J - 1) * (K * B)).
    { assert (E1 : q * (K * B) <= W * M * B).
      { replace (q * (K * B)) with (K * q * B) by ring.
        apply Z.mul_le_mono_nonneg_r; lia. }
      assert (E2 : W * c + K * B < J * K).
      { rewrite HJK.
        assert (W * c <= 2 ^ 53 * 2 ^ 20) by (apply Z.mul_le_mono_nonneg; lia).
        assert (K * B <= 2 ^ 53 * 3125) by (apply Z.mul_le_mono_nonneg; lia).
        assert (2 ^ 22 * 2 ^ 53 <= P * T) by (apply Z.mul_le_mono_nonneg; lia).
        lia. }
      assert (E3 : (N * B + r) * (J * K) <= (N * B + B - 1) * (J * K))
        by (apply Z.mul_le_mono_nonneg_r; lia).
      replace (((N + 1) * J - 1) * (K * B))
        with ((N * B + B - 1) * (J * K) + J * K - K * B) by ring.
      lia. }
    apply Z.mul_lt_mono_pos_r in U1; lia. }
  symmetry. apply Z.div_unique with (mr - N * J). 
  - left. destruct Hmr; lia.
  - fold N. ring.
Qed.

(** [int(n * x)] for a scale factor [x] = M * 2^-t that lies at most
    2^20 / (B * 2^t) above the fraction A / B: the exact quotient. *)
Lemma scaled_dim M t A B n :
  2 ^ 52 <= Zpos M < 2 ^ 53 -> t = 53 \/ t = 54 ->
  0 <= A -> 0 < B <= 3125 ->
  0 <= Zpos M * B - A * 2 ^ t <= 2 ^ 20 ->
  0 <= n < 2 ^ 31 ->
  (let* x := int_mul n (S754_finite false M (- t)) in to_int x)
  = Ok (n * A / B).
Proof.
  intros HM Ht HA HB Hc Hn.
  destruct (Z.eq_dec n 0) as [->|Hn0].
  { cbn. reflexivity. }
  destruct (of_int_small n ltac:(lia)) as (mz & s & E & Mz & Bz & Hs).
  unfold int_mul. rewrite E. cbn [bind]. unfold mul. cbn [SFmul xorb].
  assert (Bm : 2 ^ 104 <= Zpos (mz * M) < 2 ^ 106).
  { rewrite Pos2Z.inj_mul.
    change (2 ^ 104) with (2 ^ 52 * 2 ^ 52).
    change (2 ^ 106) with (2 ^ 53 * 2 ^ 53).
    split.
    - apply Z.mul_le_mono_nonneg; lia.
    - apply Z.mul_lt_mono_nonneg; lia. }
  destruct (round_product (mz * M) (- s + - t) Bm ltac:(lia))
    as (k & mr & Hk & Bk & Hmr & R).
  rewrite R. clear R.
  set (j := s + t - k).
  assert (Hj : 1 <= j) by (unfold j; lia).
  assert (PJ : 0 < 2 ^ j) by (apply Z.pow_pos_nonneg; lia).
  assert (PK : 0 < 2 ^ k) by (apply Z.pow_pos_nonneg; lia).
  assert (Q : 2 ^ 52 <= Zpos (mz * M) / 2 ^ k < 2 ^ 53).
  { rewrite !(Z.pow_add_r 2 _ k) in Bk by lia.
    split.
    - apply Z.div_le_lower_bound; lia.
    - apply Z.div_lt_upper_bound; lia. }
  assert (V : (if mr <? 2 ^ 53
               then to_int (S754_finite false (Z.to_pos mr) (- s + - t + k))
               else to_int (S754_finite false (Z.to_pos (2 ^ 52))
                              (- s + - t + k + 1)))
              = Ok (mr / 2 ^ j)).
  { destruct (Z.ltb_spec mr (2 ^ 53)) as [L|L].
    - cbn [to_int cond_Zopp].
      destruct (Z.leb_spec 0 (- s + - t + k)); [lia|].
      rewrite Z2Pos.id by lia. do 2 f_equal. unfold j. f_equal. lia.
    - assert (Em : mr = 2 ^ 53) by lia.
      cbn [to_int cond_Zopp].
      destruct (Z.leb_spec 0 (- s + - t + k + 1)) as [G|G].
      + assert (j = 1) by (unfold j; lia).
        replace (- s + - t + k + 1) with 0 by lia.
        rewrite Em. replace j with 1 by lia. reflexivity.
      + rewrite Em. f_equal.
        replace (- (- s + - t + k + 1)) with (j - 1) by (unfold j; lia).
        rewrite (pow2_succ j) by lia.
        change (Zpos (Z.to_pos (2 ^ 52))) with (2 ^ 52).
        change (2 ^ 53) with (2 * 2 ^ 52).
        rewrite Z.div_mul_cancel_l; [reflexivity| |lia].
        apply Z.pow_nonzero; lia. }
  destruct (mr <? 2 ^ 53); rewrite V; f_equal.
  all: apply (scaled_quotient n (2 ^ s) (Zpos mz) (Zpos M) (2 ^ t) (2 ^ k)
                (2 ^ j) (Zpos (mz * M) / 2 ^ k) mr A B
                (Zpos M * B - A * 2 ^ t)); try lia.
  all: try (rewrite <- Pos2Z.inj_mul; reflexivity || exact Hmr).
  all: try (apply Z.pow_le_mono_r; lia).
  all: try (split; [lia|apply Z.pow_le_mono_r; lia]).
  all: try (rewrite <- !Z.pow_add_r by lia; f_equal; unfold j; lia).
Qed.

End FloatFacts.

(** ** The shrinker *)

Section Properties.
Variable image : Type.
Variable Image_open : bytes -> res image.
Variable width height : image -> Z.
Variable Image_resize : image -> Z * Z -> Resampling -> res image.
Variable Image_save :
  image -> forall (format : str) (quality : option Z) (optimize : bool),
  res bytes.
Variable convert_stream :
  bytes -> option StreamInfo -> option bool -> res str.
Variable secure_filename : str -> str.
Variable splitext_ext : str -> str.
Variable upper_unicode : str -> str.
Variable lower_unicode : str -> str.
Variable int_unicode : str -> res Z.

Local Abbreviation loop :=
  (shrink_loop width height Image_resize Image_save upper_unicode).
Local Abbreviation try_body :=
  (resize_image_try Image_open width height Image_resize Image_save
     upper_unicode).
Local Abbreviation callback :=
  (resize_image_match Image_open width height Image_resize Image_save
     upper_unicode).
Local Abbreviation shrink :=
  (resize_base64_images Image_open width height Image_resize Image_save
     upper_unicode).
Local Abbreviation render :=
  (rendered Image_open width height Image_resize Image_save upper_unicode).
Local Abbreviation encoded :=
  (encoded_from Image_resize Image_save upper_unicode).
Local Abbreviation save_format := (save_format_of upper_unicode).

Lemma kb_le data max_size_kb :
  Qle_bool (kb data) (inject_Z max_size_kb) = true <->
  len data <= 1024 * max_size_kb.
Proof.
  rewrite Qle_bool_iff. unfold kb, Qle, inject_Z. simpl Qnum; simpl Qden.
  lia.
Qed.

Lemma kb_le_Q data max_size_kb :
  Qle_bool (kb data) (inject_Z max_size_kb) = true <->
  (len data # 1024 <= inject_Z max_size_kb)%Q.
Proof. apply Qle_bool_iff. Qed.

Lemma result_bind {A B} (c : Logged.M A) (k : A -> Logged.M B) :
  Logged.result (Logged.bindM c k) =
  match Logged.result c with
  | Ok a => Logged.result (k a)
  | Raise e => Raise e
  end.
Proof.
  destruct c as [l [a|e]]; cbn; [|reflexivity]. now destruct (k a).
Qed.

Lemma calls_bind {A B} (c : Logged.M A) (k : A -> Logged.M B) :
  Logged.calls (Logged.bindM c k) =
  Logged.calls c ++
  match Logged.result c with
  | Ok a => Logged.calls (k a)
  | Raise e => []
  end.
Proof.
  destruct c as [l [a|e]]; cbn; [|now rewrite app_nil_r]. now destruct (k a).
Qed.

Lemma save_call resized fmt :
  (if str_eqb fmt (lit "JPEG")
   then Image_save resized fmt (Some 85) true
   else Image_save resized fmt None true)
  = Image_save resized fmt (quality_of fmt) true.
Proof. unfold quality_of. now destruct (str_eqb _ _). Qed.

(** How the loop can end: with the match as it was, with an exception, or
    with a block rebuilt around an encoding that fits. *)
Lemma loop_result max_size_kb m img n scale :
  match Logged.result (loop max_size_kb m img n scale) with
  | Ok r =>
      r = Re.group0 m \/
      exists data,
        r = image_block (Re.group1 m) (Re.group2 m) (Base64.b64encode data) /\
        len data <= 1024 * max_size_kb /\
        encoded img (Re.group2 m) data
  | Raise _ => True
  end.
Proof.
  revert scale. induction n as [|n IH]; intros scale; cbn [shrink_loop].
  - now left.
  - rewrite !result_bind. cbn [Logged.lift Logged.result snd].
    destruct (new_size width height img scale) as [size|e]; [|exact I].
    rewrite !result_bind. cbn [Logged.result snd].
    destruct (Image_resize img size LANCZOS) as [resized|e] eqn:ER;
      [|exact I].
    rewrite !result_bind. cbn [Logged.lift Logged.result snd].
    rewrite save_call.
    destruct (Image_save resized _ _ true) as [data|e] eqn:EV; [|exact I].
    destruct (Qle_bool (kb data) (inject_Z max_size_kb)) eqn:EQ.
    + cbn. right. exists data. split; [reflexivity|]. split.
      * now apply kb_le.
      * now exists size, resized.
    + apply IH.
Qed.

(** The same for the whole [try]. *)
Lemma try_result max_size_kb m :
  match Logged.result (try_body max_size_kb m) with
  | Ok r =>
      r = Re.group0 m \/
      exists data0 img data,
        Base64.b64decode (Re.group3 m) = Ok data0 /\
        1024 * max_size_kb < len data0 /\
        Image_open data0 = Ok img /\
        r = image_block (Re.group1 m) (Re.group2 m) (Base64.b64encode data) /\
        len data <= 1024 * max_size_kb /\
        encoded img (Re.group2 m) data
  | Raise _ => True
  end.
Proof.
  unfold resize_image_try. rewrite result_bind.
  cbn [Logged.lift Logged.result snd].
  destruct (Base64.b64decode (Re.group3 m)) as [data0|e] eqn:ED; [|exact I].
  destruct (Qle_bool (kb data0) (inject_Z max_size_kb)) eqn:EQ.
  - now left.
  - rewrite result_bind. cbn [Logged.lift Logged.result snd].
    destruct (Image_open data0) as [img|e] eqn:EO; [|exact I].
    pose proof (loop_result max_size_kb m img max_iterations PyFloat.lit_0_8)
      as L.
    destruct (Logged.result (loop max_size_kb m img max_iterations
                               PyFloat.lit_0_8)) as [r|e]; [|exact I].
    destruct L as [L | (data & E & B & V)]; [now left|].
    right. exists data0, img, data. repeat split; try assumption.
    destruct (Z.leb_spec (len data0) (1024 * max_size_kb)) as [H|H];
      [|exact H].
    apply kb_le in H. congruence.
Qed.

(** [resize_image_match] always returns, with the match as it was or with
    a rebuilt block. *)
Lemma callback_result max_size_kb m :
  exists r,
    callback max_size_kb m = Ok r /\
    (r = Re.group0 m \/
     exists data0 img data,
       Base64.b64decode (Re.group3 m) = Ok data0 /\
       1024 * max_size_kb < len data0 /\
       Image_open data0 = Ok img /\
       r = image_block (Re.group1 m) (Re.group2 m) (Base64.b64encode data) /\
       len data <= 1024 * max_size_kb /\
       encoded img (Re.group2 m) data).
Proof.
  unfold resize_image_match.
  pose proof (try_result max_size_kb m) as T.
  destruct (Logged.result (try_body max_size_kb m)) as [r|e].
  - now exists r.
  - exists (Re.group0 m). split; [reflexivity|now left].
Qed.

Lemma callback_render max_size_kb m :
  callback max_size_kb m = Ok (render max_size_kb (Re.Hit m)).
Proof.
  destruct (callback_result max_size_kb m) as (r & E & _).
  unfold rendered. now rewrite E.
Qed.

Lemma substitute_render max_size_kb ts :
  Re.substitute (callback max_size_kb) ts
  = Ok (flat_map (render max_size_kb) ts).
Proof.
  induction ts as [|[c|m] ts IH]; cbn [Re.substitute flat_map].
  - reflexivity.
  - rewrite IH. reflexivity.
  - rewrite callback_render, IH. reflexivity.
Qed.

(** With Pillow present the output is the scanned text with every match
    rendered. *)
Lemma shrink_render s max_size_kb :
  shrink true s max_size_kb
  = Ok (flat_map (render max_size_kb) (Re.tokens s)).
Proof. unfold resize_base64_images, Re.sub. apply substitute_render. Qed.


Lemma tokens_scanned s : scanned s (Re.tokens s).
Proof.
  induction s as [| s m rest E IH | c s E IH] using ReFacts.scan_ind.
  - constructor.
  - rewrite (ReFacts.tokens_hit _ E).
    apply ReFacts.match_here_sound in E as (g1 & g2 & g3 & G & -> & ->).
    now apply scanned_hit.
  - rewrite (ReFacts.tokens_chr _ _ E). apply scanned_chr; [|exact IH].
    intros g1 g2 g3 rest G H. rewrite H in E.
    now rewrite (ReFacts.match_here_complete _ G) in E.
Qed.

Lemma scanned_hits s ts m :
  scanned s ts -> In (Re.Hit m) ts ->
  exists g1 g2 g3,
    Re.groups_ok g1 g2 g3 /\
    m = Re.mk_match (image_block g1 g2 g3) g1 g2 g3.
Proof.
  induction 1 as [| g1 g2 g3 rest ts G _ IH | c s ts _ _ IH]; cbn [In].
  - tauto.
  - intros [E|I]; [|now apply IH]. injection E as <-. now exists g1, g2, g3.
  - intros [E|I]; [discriminate|now apply IH].
Qed.

Lemma token_block s m :
  In (Re.Hit m) (Re.tokens s) ->
  Re.group0 m = image_block (Re.group1 m) (Re.group2 m) (Re.group3 m).
Proof.
  intros H.
  destruct (scanned_hits _ _ m (tokens_scanned s) H) as (g1 & g2 & g3 & _ & ->).
  reflexivity.
Qed.

Lemma render_cases max_size_kb m :
  render max_size_kb (Re.Hit m) = Re.group0 m \/
  exists data0 img data,
    Base64.b64decode (Re.group3 m) = Ok data0 /\
    1024 * max_size_kb < len data0 /\
    Image_open data0 = Ok img /\
    render max_size_kb (Re.Hit m)
    = image_block (Re.group1 m) (Re.group2 m) (Base64.b64encode data) /\
    len data <= 1024 * max_size_kb /\
    encoded img (Re.group2 m) data.
Proof.
  destruct (callback_result max_size_kb m) as (r & E & C).
  unfold rendered. rewrite E. exact C.
Qed.

Lemma Qle_kb n max_size_kb :
  (n # 1024 <= inject_Z max_size_kb)%Q <-> n <= 1024 * max_size_kb.
Proof. unfold Qle, inject_Z. simpl Qnum; simpl Qden. lia. Qed.

Lemma Qlt_kb n max_size_kb :
  (inject_Z max_size_kb < n # 1024)%Q <-> 1024 * max_size_kb < n.
Proof. unfold Qlt, inject_Z. simpl Qnum; simpl Qden. lia. Qed.

Lemma shrink_at s max_size_kb pre m post :
  Re.tokens s = pre ++ Re.Hit m :: post ->
  shrink true s max_size_kb
  = Ok (flat_map (render max_size_kb) pre ++ render max_size_kb (Re.Hit m)
        ++ flat_map (render max_size_kb) post).
Proof.
  intros E. rewrite shrink_render, E, flat_map_app. reflexivity.
Qed.

(** C1: a matched block whose decoded payload is over the budget comes out
    of [resize_base64_images], at its own position, either as it was or as
    a data URI whose payload decodes to at most [max_size_kb] kilobytes. *)
Theorem over_budget_fits_or_unchanged s max_size_kb pre m post data0 :
  Re.tokens s = pre ++ Re.Hit m :: post ->
  Base64.b64decode (Re.group3 m) = Ok data0 ->
  (inject_Z max_size_kb < len data0 # 1024)%Q ->
  exists r,
    shrink true s max_size_kb
    = Ok (flat_map (render max_size_kb) pre ++ r
          ++ flat_map (render max_size_kb) post) /\
    (r = Re.group0 m \/
     exists payload data,
       r = image_block (Re.group1 m) (Re.group2 m) payload /\
       Base64.b64decode payload = Ok data /\
       (len data # 1024 <= inject_Z max_size_kb)%Q).
Proof.
  intros E _ _. exists (render max_size_kb (Re.Hit m)).
  split; [now apply shrink_at|].
  destruct (render_cases max_size_kb m)
    as [U | (d0 & img & data & _ & _ & _ & R & B & _)]; [now left|].
  right. exists (Base64.b64encode data), data.
  split; [exact R|]. split; [apply Base64Facts.b64decode_b64encode|].
  now apply Qle_kb.
Qed.

(** C2: the text outside the matched blocks is copied.  The scan cuts the
    document into single characters and blocks of the pattern, leftmost and
    one after the other; the output is the same sequence with every
    character kept and only the blocks rendered anew. *)
Theorem text_outside_blocks_kept PIL_AVAILABLE s max_size_kb :
  exists (ts : list Re.token) (out_of : Re.token -> str),
    scanned s ts /\
    s = flat_map Re.source ts /\
    shrink PIL_AVAILABLE s max_size_kb = Ok (flat_map out_of ts) /\
    forall c, out_of (Re.Chr c) = [c].
Proof.
  exists (Re.tokens s).
  destruct PIL_AVAILABLE.
  - exists (render max_size_kb). repeat split.
    + apply tokens_scanned.
    + symmetry. apply ReFacts.tokens_source.
    + apply shrink_render.
  - exists Re.source. repeat split.
    + apply tokens_scanned.
    + symmetry. apply ReFacts.tokens_source.
    + cbn. now rewrite ReFacts.tokens_source.
Qed.

(** C3: a matched block whose payload decodes to at most [max_size_kb]
    kilobytes, by true division of the byte count by 1024, is returned as it
    was. *)
Theorem under_budget_unchanged s max_size_kb pre m post data0 :
  Re.tokens s = pre ++ Re.Hit m :: post ->
  Base64.b64decode (Re.group3 m) = Ok data0 ->
  (len data0 # 1024 <= inject_Z max_size_kb)%Q ->
  callback max_size_kb m = Ok (Re.group0 m) /\
  shrink true s max_size_kb
  = Ok (flat_map (render max_size_kb) pre ++ Re.group0 m
        ++ flat_map (render max_size_kb) post).
Proof.
  intros E D B.
  assert (C : callback max_size_kb m = Ok (Re.group0 m)).
  { unfold resize_image_match, resize_image_try.
    rewrite result_bind. cbn [Logged.lift Logged.result snd].
    rewrite D. apply kb_le_Q in B. unfold kb. cbv zeta.
    fold (kb data0). rewrite B. reflexivity. }
  split; [exact C|].
  rewrite (shrink_at _ _ _ _ _ E). unfold rendered at 2. now rewrite C.
Qed.

Lemma try_decode_fails max_size_kb m e :
  Base64.b64decode (Re.group3 m) = Raise e ->
  Logged.result (try_body max_size_kb m) = Raise e.
Proof.
  intros D. unfold resize_image_try. rewrite result_bind.
  cbn [Logged.lift Logged.result snd]. now rewrite D.
Qed.

Lemma try_open_fails max_size_kb m data0 e :
  Base64.b64decode (Re.group3 m) = Ok data0 ->
  1024 * max_size_kb < len data0 ->
  Image_open data0 = Raise e ->
  Logged.result (try_body max_size_kb m) = Raise e.
Proof.
  intros D B O. unfold resize_image_try. rewrite result_bind.
  cbn [Logged.lift Logged.result snd]. rewrite D.
  destruct (Qle_bool (kb data0) (inject_Z max_size_kb)) eqn:EQ.
  - apply kb_le in EQ. lia.
  - rewrite result_bind. cbn [Logged.lift Logged.result snd]. now rewrite O.
Qed.

(** A failure of [resize] or of [save] in the iteration the loop is at. *)
Lemma loop_resize_fails max_size_kb m img n scale size e :
  new_size width height img scale = Ok size ->
  Image_resize img size LANCZOS = Raise e ->
  Logged.result (loop max_size_kb m img (S n) scale) = Raise e.
Proof.
  intros N R. cbn [shrink_loop]. rewrite !result_bind.
  cbn [Logged.lift Logged.result snd]. rewrite N.
  rewrite !result_bind. cbn [Logged.result snd]. now rewrite R.
Qed.

Lemma loop_save_fails max_size_kb m img n scale size resized e :
  new_size width height img scale = Ok size ->
  Image_resize img size LANCZOS = Ok resized ->
  Image_save resized (save_format (Re.group2 m))
    (quality_of (save_format (Re.group2 m))) true = Raise e ->
  Logged.result (loop max_size_kb m img (S n) scale) = Raise e.
Proof.
  intros N R V. cbn [shrink_loop]. rewrite !result_bind.
  cbn [Logged.lift Logged.result snd]. rewrite N.
  rewrite !result_bind. cbn [Logged.result snd]. rewrite R.
  rewrite !result_bind. cbn [Logged.lift Logged.result snd].
  now rewrite save_call, V.
Qed.

(** C4: [resize_base64_images] never raises.  Whatever raises while one
    block is processed, that block is passed through as it was, and every
    other token is rendered as if nothing had happened. *)
Theorem never_raises PIL_AVAILABLE s max_size_kb :
  (exists out, shrink PIL_AVAILABLE s max_size_kb = Ok out) /\
  shrink true s max_size_kb
  = Ok (flat_map (render max_size_kb) (Re.tokens s)) /\
  (forall m e,
      Logged.result (try_body max_size_kb m) = Raise e ->
      callback max_size_kb m = Ok (Re.group0 m) /\
      render max_size_kb (Re.Hit m) = Re.group0 m) /\
  (forall m e,
      Base64.b64decode (Re.group3 m) = Raise e ->
      render max_size_kb (Re.Hit m) = Re.group0 m) /\
  (forall m data0 e,
      Base64.b64decode (Re.group3 m) = Ok data0 ->
      Image_open data0 = Raise e ->
      render max_size_kb (Re.Hit m) = Re.group0 m).
Proof.
  assert (A : forall m e,
             Logged.result (try_body max_size_kb m) = Raise e ->
             callback max_size_kb m = Ok (Re.group0 m) /\
             render max_size_kb (Re.Hit m) = Re.group0 m).
  { intros m e T. unfold rendered, resize_image_match. now rewrite T. }
  split; [|split; [apply shrink_render|split; [exact A|split]]].
  - destruct PIL_AVAILABLE.
    + eexists. apply shrink_render.
    + now exists s.
  - intros m e D. eapply A, try_decode_fails, D.
  - intros m data0 e D O.
    destruct (Z.ltb_spec (1024 * max_size_kb) (len data0)) as [B|B].
    + eapply A, try_open_fails; eassumption.
    + unfold rendered, resize_image_match, resize_image_try.
      rewrite result_bind. cbn [Logged.lift Logged.result snd]. rewrite D.
      apply kb_le in B. now rewrite B.
Qed.

(** C5: a block that is replaced keeps its alt text and its format tag as
    they were written; the image was saved under the upper-cased tag, with
    JPG turned into JPEG; the payload is another one, and it decodes to
    fewer bytes than the original did. *)
Theorem replaced_block_keeps_tag s max_size_kb m r :
  In (Re.Hit m) (Re.tokens s) ->
  callback max_size_kb m = Ok r ->
  r <> Re.group0 m ->
  exists payload data0 data img,
    Re.group0 m = image_block (Re.group1 m) (Re.group2 m) (Re.group3 m) /\
    r = image_block (Re.group1 m) (Re.group2 m) payload /\
    payload <> Re.group3 m /\
    Base64.b64decode (Re.group3 m) = Ok data0 /\
    Base64.b64decode payload = Ok data /\
    len data < len data0 /\
    Image_open data0 = Ok img /\
    encoded img (Re.group2 m) data /\
    save_format (lit "jpg") = lit "JPEG".
Proof.
  intros I C N.
  destruct (callback_result max_size_kb m) as (r' & E & H).
  rewrite C in E. injection E as <-.
  destruct H as [U | (d0 & img & data & D & B & O & R & B' & V)];
    [contradiction|].
  exists (Base64.b64encode data), d0, data, img.
  pose proof (Base64Facts.b64decode_b64encode data) as RT.
  repeat split; try assumption.
  - now apply token_block with (s := s).
  - intros P. rewrite P in RT. rewrite D in RT. injection RT as ->. lia.
  - lia.
Qed.

(** C7: without Pillow [resize_base64_images] returns its input. *)
Theorem no_pillow_identity s max_size_kb :
  shrink false s max_size_kb = Ok s.
Proof. reflexivity. Qed.


(** *** Running the shrinker twice *)

Lemma aligned_first stable s out :
  aligned stable s out ->
  s = out \/
  exists u g1 g2 g3 g3' rest rest',
    Re.groups_ok g1 g2 g3 /\ Re.groups_ok g1 g2 g3' /\
    s = u ++ image_block g1 g2 g3 ++ rest /\
    out = u ++ image_block g1 g2 g3' ++ rest'.
Proof.
  induction 1 as [| c s out _ _ IH | g1 g2 g3 g3' rest out G G' _ _ _].
  - now left.
  - destruct IH as [->|(u & g1 & g2 & g3 & g3' & r & r' & G & G' & -> & ->)];
      [now left|].
    right. exists (c :: u), g1, g2, g3, g3', r, r'.
    split; [exact G|split; [exact G'|split; reflexivity]].
  - right. exists [], g1, g2, g3, g3', rest, out.
    split; [exact G|split; [exact G'|split; reflexivity]].
Qed.

Lemma block_split u g1 g2 g3 rest :
  u ++ image_block g1 g2 g3 ++ rest =
  (u ++ lit "![" ++ g1) ++ "]"%char :: (lit "(data:image/" ++ g2)
  ++ lit ";base64," ++ g3 ++ ")"%char :: rest.
Proof.
  unfold image_block. rewrite <- !app_assoc. reflexivity.
Qed.

(** A position where no block starts in the input starts none in the
    output either. *)
Lemma aligned_no_match stable c s out :
  Re.match_here (c :: s) = None ->
  aligned stable s out ->
  Re.match_here (c :: out) = None.
Proof.
  intros M A.
  destruct (aligned_first _ _ _ A)
    as [->|(u & g1 & g2 & g3 & g3' & r & r' & G & G' & -> & ->)];
    [exact M|].
  destruct (Re.match_here (c :: u ++ image_block g1 g2 g3' ++ r')) eqn:E;
    [|reflexivity].
  assert (R : Automaton.run Automaton.start
                (c :: u ++ image_block g1 g2 g3' ++ r') = Automaton.Done).
  { apply AutomatonFacts.match_here_run. congruence. }
  change (c :: u ++ ?x) with ((c :: u) ++ x) in R.
  rewrite block_split in R.
  destruct G as (_ & _ & _ & N & E3). destruct G' as (_ & _ & _ & N' & E3').
  rewrite (AutomatonFacts.run_payload_irrelevant _ _ r' r N' E3' N E3) in R.
  rewrite <- block_split in R.
  apply AutomatonFacts.match_here_run in R. now elim R.
Qed.

Lemma aligned_fixed stable max_size_kb s out :
  (forall m, stable m -> render max_size_kb (Re.Hit m) = Re.group0 m) ->
  aligned stable s out ->
  flat_map (render max_size_kb) (Re.tokens out) = out.
Proof.
  intros S. induction 1 as [| c s out M A IH | g1 g2 g3 g3' rest out G G' St A IH].
  - reflexivity.
  - rewrite ReFacts.tokens_chr by (eapply aligned_no_match; eassumption).
    cbn [flat_map rendered app]. now rewrite IH.
  - rewrite (ReFacts.tokens_hit _ (ReFacts.match_here_complete out G')).
    cbn [flat_map]. rewrite IH.
    unfold Re.block_match.
    now rewrite (S _ St).
Qed.

Local Abbreviation stable_at :=
  (stable_block Image_open width height Image_resize Image_save
     upper_unicode).

Section Idempotence.

Hypothesis save_nonempty :
  forall img fmt quality optimize data,
    Image_save img fmt quality optimize = Ok data -> data <> [].

Lemma b64encode_nonempty data : data <> [] -> Base64.b64encode data <> [].
Proof. destruct data as [|x [|y [|z data]]]; cbn; congruence. Qed.

Lemma b64encode_no_paren data : ~ In ")"%char (Base64.b64encode data).
Proof.
  intros H. pose proof (Base64Facts.b64encode_chars data) as F.
  rewrite Forall_forall in F. apply F in H.
  unfold Base64.b64_char in H. cbn in H.
  repeat (destruct H as [H|H]; [discriminate H|]). exact H.
Qed.

Lemma encoded_block_stable max_size_kb g1 g2 data :
  len data <= 1024 * max_size_kb ->
  stable_at max_size_kb
    (Re.mk_match (image_block g1 g2 (Base64.b64encode data)) g1 g2
       (Base64.b64encode data)).
Proof.
  intros B. unfold stable_block, rendered, resize_image_match,
    resize_image_try.
  rewrite result_bind. cbn [Logged.lift Logged.result snd Re.group3].
  rewrite Base64Facts.b64decode_b64encode.
  apply kb_le in B. now rewrite B.
Qed.

Lemma shrink_aligned max_size_kb s :
  aligned (stable_at max_size_kb) s
    (flat_map (render max_size_kb) (Re.tokens s)).
Proof.
  induction s as [| s m rest E IH | c s E IH] using ReFacts.scan_ind.
  - constructor.
  - rewrite (ReFacts.tokens_hit _ E). cbn [flat_map].
    apply ReFacts.match_here_sound in E as (g1 & g2 & g3 & G & -> & ->).
    destruct (render_cases max_size_kb (Re.block_match g1 g2 g3))
      as [U | (d0 & img & data & _ & _ & _ & R & B & (sz & rs & _ & V))].
    + rewrite U. cbn [Re.group0 Re.block_match].
      apply aligned_hit; assumption.
    + rewrite R. cbn [Re.group1 Re.group2 Re.block_match].
      apply aligned_hit; try assumption.
      * destruct G as (N1 & N2 & E2 & _ & _).
        repeat split; try assumption.
        -- apply b64encode_no_paren.
        -- apply b64encode_nonempty. eapply save_nonempty, V.
      * now apply encoded_block_stable.
  - rewrite (ReFacts.tokens_chr _ _ E). cbn [flat_map rendered app].
    now apply aligned_chr.
Qed.

(** C10: [resize_base64_images] is idempotent.  The codec is a function
    of its inputs, and every image the encoder returns has at least one
    byte, as every file format Pillow writes starts with a signature:
    shrinking the output of the shrinker again changes nothing. *)
Theorem shrink_idempotent PIL_AVAILABLE s max_size_kb :
  exists out,
    shrink PIL_AVAILABLE s max_size_kb = Ok out /\
    shrink PIL_AVAILABLE out max_size_kb = Ok out.
Proof.
  destruct PIL_AVAILABLE; [|now exists s].
  exists (flat_map (render max_size_kb) (Re.tokens s)).
  split; [apply shrink_render|].
  rewrite shrink_render. f_equal.
  apply (aligned_fixed (stable_at max_size_kb) max_size_kb s);
    [now intros m|apply shrink_aligned].
Qed.

End Idempotence.

(** *** The attempts of the loop *)
Section Attempts.

(** Pillow keeps the two dimensions of an image in C [int]s. *)
Hypothesis dimensions_fit :
  forall img, 0 <= width img < 2 ^ 31 /\ 0 <= height img < 2 ^ 31.

Lemma scale_mul i :
  PyFloat.mul (scale_at i) PyFloat.lit_0_8 = scale_at (S i).
Proof. reflexivity. Qed.

Lemma scaled_at n i :
  (i < 5)%nat -> 0 <= n < 2 ^ 31 ->
  (let* x := PyFloat.int_mul n (scale_at i) in PyFloat.to_int x)
  = Ok (n * 4 ^ Z.of_nat (S i) / 5 ^ Z.of_nat (S i)).
Proof.
  intros Hi Hn.
  destruct i as [|[|[|[|[|i]]]]]; try lia.
  - change (scale_at 0) with (S754_finite false 7205759403792794 (- (53))).
    apply FloatFacts.scaled_dim; cbn; lia.
  - change (scale_at 1) with (S754_finite false 5764607523034236 (- (53))).
    apply FloatFacts.scaled_dim; cbn; lia.
  - change (scale_at 2) with (S754_finite false 4611686018427389 (- (53))).
    apply FloatFacts.scaled_dim; cbn; lia.
  - change (scale_at 3) with (S754_finite false 7378697629483823 (- (54))).
    apply FloatFacts.scaled_dim; cbn; lia.
  - change (scale_at 4) with (S754_finite false 5902958103587059 (- (54))).
    apply FloatFacts.scaled_dim; cbn; lia.
Qed.

Lemma new_size_at img i :
  (i < 5)%nat ->
  new_size width height img (scale_at i)
  = Ok (target_size width height img (S i)).
Proof.
  intros Hi. unfold new_size, target_size.
  destruct (dimensions_fit img) as [W H].
  rewrite (scaled_at _ _ Hi W). cbn [bind].
  rewrite (scaled_at _ _ Hi H). reflexivity.
Qed.

Lemma loop_calls max_size_kb m img n i :
  (i + n <= 5)%nat ->
  exists k,
    (k <= n)%nat /\
    Logged.calls (loop max_size_kb m img n (scale_at i))
    = map (target_size width height img) (seq (S i) k).
Proof.
  revert i. induction n as [|n IH]; intros i Hi.
  - exists 0%nat. split; [lia|reflexivity].
  - cbn [shrink_loop]. rewrite calls_bind.
    cbn [Logged.lift Logged.calls Logged.result fst snd app].
    rewrite new_size_at by lia.
    rewrite calls_bind. cbn [Logged.calls Logged.result fst snd app].
    destruct (Image_resize img _ LANCZOS) as [resized|e].
    + rewrite calls_bind. cbn [Logged.lift Logged.calls Logged.result fst snd app].
      destruct (if str_eqb _ _ then _ else _) as [data|e].
      * destruct (Qle_bool (kb data) (inject_Z max_size_kb)).
        -- exists 1%nat. split; [lia|reflexivity].
        -- rewrite scale_mul.
           destruct (IH (S i) ltac:(lia)) as (k & Hk & E).
           exists (S k). split; [lia|]. rewrite E. reflexivity.
      * exists 1%nat. split; [lia|reflexivity].
    + exists 1%nat. split; [lia|reflexivity].
Qed.

Lemma target_decreases img i :
  fst (target_size width height img (S i))
    <= fst (target_size width height img i) /\
  snd (target_size width height img (S i))
    <= snd (target_size width height img i).
Proof.
  destruct (dimensions_fit img) as [W H].
  assert (G : forall n, 0 <= n ->
            n * 4 ^ Z.of_nat (S i) / 5 ^ Z.of_nat (S i)
            <= n * 4 ^ Z.of_nat i / 5 ^ Z.of_nat i).
  { intros n Hn. rewrite Nat2Z.inj_succ, !Z.pow_succ_r by lia.
    assert (P4 : 0 < 4 ^ Z.of_nat i) by (apply Z.pow_pos_nonneg; lia).
    assert (P5 : 0 < 5 ^ Z.of_nat i) by (apply Z.pow_pos_nonneg; lia).
    set (x := n * 4 ^ Z.of_nat i).
    assert (X : 0 <= x) by (unfold x; nia).
    replace (n * (4 * 4 ^ Z.of_nat i)) with (4 * x) by (unfold x; ring).
    transitivity (5 * x / (5 * 5 ^ Z.of_nat i)).
    - apply Z.div_le_mono; lia.
    - rewrite Z.div_mul_cancel_l by lia. lia. }
  split; apply G; lia.
Qed.

(** C6: the loop makes at most five attempts; attempt [i] asks [resize]
    for floor(width * 0.8^i) by floor(height * 0.8^i), taken from the
    opened image every time, and these sizes never grow. *)
Theorem attempts_scaled_from_original max_size_kb m :
  let attempts := Logged.calls (try_body max_size_kb m) in
  (List.length attempts <= 5)%nat /\
  (attempts = [] \/
   exists data0 img,
     Base64.b64decode (Re.group3 m) = Ok data0 /\
     Image_open data0 = Ok img /\
     attempts = map (target_size width height img)
                    (seq 1 (List.length attempts))) /\
  (forall img i,
      fst (target_size width height img (S i))
        <= fst (target_size width height img i) /\
      snd (target_size width height img (S i))
        <= snd (target_size width height img i)).
Proof.
  cbv zeta.
  assert (T : Logged.calls (try_body max_size_kb m) = [] \/
              exists data0 img k,
                Base64.b64decode (Re.group3 m) = Ok data0 /\
                Image_open data0 = Ok img /\ (k <= 5)%nat /\
                Logged.calls (try_body max_size_kb m)
                = map (target_size width height img) (seq 1 k)).
  { unfold resize_image_try. rewrite calls_bind.
    cbn [Logged.lift Logged.calls Logged.result fst snd app].
    destruct (Base64.b64decode (Re.group3 m)) as [data0|e]; [|now left].
    destruct (Qle_bool (kb data0) (inject_Z max_size_kb)); [now left|].
    rewrite calls_bind.
    cbn [Logged.lift Logged.calls Logged.result fst snd app].
    destruct (Image_open data0) as [img|e] eqn:EO; [|now left].
    destruct (loop_calls max_size_kb m img max_iterations 0 (le_n 5))
      as (k & Hk & E).
    right. exists data0, img, k. repeat split; try assumption. }
  split; [|split; [|apply target_decreases]].
  - destruct T as [->|(d0 & img & k & _ & _ & Hk & ->)]; [cbn; lia|].
    now rewrite length_map, length_seq.
  - destruct T as [T|(d0 & img & k & D & O & Hk & E)]; [now left|].
    right. exists d0, img. rewrite E at 1.
    rewrite E, length_map, length_seq. now repeat split.
Qed.

End Attempts.

(** *** The endpoints *)

Local Abbreviation handle_file :=
  (convert_file Image_open width height Image_resize Image_save
     convert_stream secure_filename splitext_ext upper_unicode lower_unicode
     int_unicode).
Local Abbreviation handle_text :=
  (convert_text Image_open width height Image_resize Image_save
     convert_stream upper_unicode int_unicode).

(** C8, the failing input: a [max_size_kb] of [1e999], which the JSON
    parser reads as the float infinity, is answered with status 500. *)
Theorem infinite_max_size_kb_is_500 PIL_AVAILABLE :
  handle_text PIL_AVAILABLE
    (mk_text (Ok (JDict [(lit "text", JStr (lit "hello"));
                         (lit "max_size_kb", JFloat (S754_infinity false))])))
  = ([], mk_response
           (jsonify [("success"%string, JBool false);
                     ("error"%string,
                      JStr (lit "cannot convert float infinity to integer"))])
           500).
Proof. reflexivity. Qed.

(** C9: without a [file] field the answer is 400 with the body
    [{"error": "No file provided"}]; with a [file] of empty name it is 400
    with an error body; in both cases nothing was converted or shrunk. *)
Theorem missing_file_is_400 PIL_AVAILABLE request :
  (lookup (lit "file") (files request) = None ->
   handle_file PIL_AVAILABLE request
   = ([], mk_response
            (Json (JDict [(lit "error", JStr (lit "No file provided"))]))
            400)) /\
  (forall file,
      lookup (lit "file") (files request) = Some file ->
      filename file = [] ->
      handle_file PIL_AVAILABLE request
      = ([], mk_response
               (Json (JDict [(lit "error", JStr (lit "No file selected"))]))
               400)).
Proof.
  split.
  - intros H. unfold convert_file. rewrite H. reflexivity.
  - intros file H E. unfold convert_file. rewrite H, E. reflexivity.
Qed.

(** *** The pattern and the documents the shrinker leaves alone *)

Lemma str_eqb_refl (a : str) : str_eqb a a = true.
Proof. unfold str_eqb. destruct (list_eq_dec ascii_dec a a); congruence. Qed.

Lemma str_eqb_ne (a b : str) : a <> b -> str_eqb a b = false.
Proof. unfold str_eqb. destruct (list_eq_dec ascii_dec a b); congruence. Qed.

(** X1: The pattern matches at the start of a text exactly when the text starts
    with a block [![g1](data:image/g2;base64,g3)] whose alt text has no "]",
    whose tag is not empty and has no ";", and whose payload is not empty
    and has no ")"; the match is then that block, with these three groups,
    and no other. *)
Theorem pattern_matches_blocks s m rest :
  Re.match_here s = Some (m, rest) <->
  exists g1 g2 g3,
    Re.groups_ok g1 g2 g3 /\
    s = image_block g1 g2 g3 ++ rest /\
    m = Re.mk_match (image_block g1 g2 g3) g1 g2 g3.
Proof.
  split.
  - intros H. apply ReFacts.match_here_sound in H as (g1 & g2 & g3 & G & M & S).
    exists g1, g2, g3. split; [exact G | split; [exact S | exact M]].
  - intros (g1 & g2 & g3 & G & -> & ->).
    exact (ReFacts.match_here_complete rest G).
Qed.

(** X2: What the encoder wrote is what the next decoding of the payload
    reads. *)
Theorem encoded_payload_decodes data :
  Base64.b64decode (Base64.b64encode data) = Ok data.
Proof. apply Base64Facts.b64decode_b64encode. Qed.

Lemma render_sources max_size_kb ts :
  (forall m, In (Re.Hit m) ts ->
             render max_size_kb (Re.Hit m) = Re.group0 m) ->
  flat_map (render max_size_kb) ts = flat_map Re.source ts.
Proof.
  induction ts as [|[c|m] ts IH]; intros H; cbn [flat_map].
  - reflexivity.
  - rewrite IH; [reflexivity|]. intros m I. apply H. now right.
  - rewrite IH; [|intros m' I; apply H; now right].
    rewrite (H m) by now left. reflexivity.
Qed.

Lemma unchanged_when_kept PIL_AVAILABLE s max_size_kb :
  (forall m, In (Re.Hit m) (Re.tokens s) ->
             render max_size_kb (Re.Hit m) = Re.group0 m) ->
  shrink PIL_AVAILABLE s max_size_kb = Ok s.
Proof.
  intros H. destruct PIL_AVAILABLE; [|reflexivity].
  rewrite shrink_render, (render_sources _ _ H).
  now rewrite ReFacts.tokens_source.
Qed.

Lemma no_mark_no_match s m :
  ~ In "!"%char s -> ~ In (Re.Hit m) (Re.tokens s).
Proof.
  induction s as [|c s IH]; intros N.
  - rewrite ReFacts.tokens_nil. intros [].
  - assert (E : Re.match_here (c :: s) = None).
    { unfold Re.match_here. cbn [lit list_ascii_of_string Re.literal].
      destruct (Ascii.eqb_spec c "!") as [->|_]; [|reflexivity].
      exfalso. apply N. now left. }
    rewrite (ReFacts.tokens_chr _ _ E). intros [I|I]; [discriminate I|].
    revert I. apply IH. intros I. apply N. now right.
Qed.

(** X3: A document without an exclamation mark has no image block and is
    returned as it is. *)
Theorem plain_text_unchanged PIL_AVAILABLE s max_size_kb :
  ~ In "!"%char s ->
  shrink PIL_AVAILABLE s max_size_kb = Ok s.
Proof.
  intros N. apply unchanged_when_kept. intros m I.
  now apply no_mark_no_match in I.
Qed.

(** X4: A document in which every block that decodes is within the budget is
    returned as it is, whatever the blocks that do not decode contain. *)
Theorem within_budget_document_unchanged PIL_AVAILABLE s max_size_kb :
  (forall m data0,
      In (Re.Hit m) (Re.tokens s) ->
      Base64.b64decode (Re.group3 m) = Ok data0 ->
      len data0 <= 1024 * max_size_kb) ->
  shrink PIL_AVAILABLE s max_size_kb = Ok s.
Proof.
  intros H. apply unchanged_when_kept. intros m I.
  destruct (render_cases max_size_kb m)
    as [E | (data0 & img & data & D & Over & _)]; [exact E|].
  specialize (H m data0 I D). lia.
Qed.

(** X5: Fail-safe: when nothing the encoder writes fits the budget, no block is
    replaced at all and the document is returned as it is. *)
Theorem hopeless_budget_document_unchanged PIL_AVAILABLE s max_size_kb :
  (forall img fmt quality optimize data,
      Image_save img fmt quality optimize = Ok data ->
      1024 * max_size_kb < len data) ->
  shrink PIL_AVAILABLE s max_size_kb = Ok s.
Proof.
  intros H. apply unchanged_when_kept. intros m _.
  destruct (render_cases max_size_kb m)
    as [E | (data0 & img & data & _ & _ & _ & _ & Fit & size & resized & _ & S)];
    [exact E|].
  apply H in S. lia.
Qed.

(** X6: With a negative [max_size_kb] no size is within the budget: every
    document is returned as it is. *)
Theorem negative_budget_document_unchanged PIL_AVAILABLE s max_size_kb :
  max_size_kb < 0 ->
  shrink PIL_AVAILABLE s max_size_kb = Ok s.
Proof.
  intros N. apply unchanged_when_kept. intros m _.
  destruct (render_cases max_size_kb m)
    as [E | (data0 & img & data & _ & _ & _ & _ & Fit & _)]; [exact E|].
  unfold len in Fit. lia.
Qed.

(** X7: The format handed to [save] is never [JPG], a name Pillow does not
    know, and the quality 85 is passed exactly for the tags that read JPG
    or JPEG in upper case. *)
Theorem save_format_normalised image_format :
  save_format image_format <> lit "JPG" /\
  (quality_of (save_format image_format) = Some 85 <->
   upper upper_unicode image_format = lit "JPG" \/
   upper upper_unicode image_format = lit "JPEG").
Proof.
  unfold save_format_of, quality_of.
  destruct (list_eq_dec ascii_dec (upper upper_unicode image_format)
              (lit "JPG")) as [E|E].
  - rewrite E, str_eqb_refl. split; [discriminate|].
    split; [now left | reflexivity].
  - rewrite (str_eqb_ne _ _ E). split; [exact E|].
    destruct (list_eq_dec ascii_dec (upper upper_unicode image_format)
                (lit "JPEG")) as [F|F].
    + rewrite F, str_eqb_refl. split; [now right | reflexivity].
    + rewrite (str_eqb_ne _ _ F). split; [discriminate|]. now intros [G|G].
Qed.

(** X8: When the encoder never writes an empty file, the output has the blocks
    of the input, in the same places, with the same alt texts and tags:
    only payloads change. *)
Theorem blocks_keep_their_places PIL_AVAILABLE s max_size_kb out :
  (forall img fmt quality optimize data,
      Image_save img fmt quality optimize = Ok data -> data <> []) ->
  shrink PIL_AVAILABLE s max_size_kb = Ok out ->
  map outline (Re.tokens out) = map outline (Re.tokens s).
Proof.
  intros NE E. destruct PIL_AVAILABLE; [|now injection E as <-].
  rewrite shrink_render in E. injection E as <-.
  pose proof (shrink_aligned NE max_size_kb s) as A.
  induction A as [| c s out M A IH | g1 g2 g3 g3' rest out G G' St A IH].
  - reflexivity.
  - rewrite (ReFacts.tokens_chr _ _ M).
    rewrite (ReFacts.tokens_chr _ _ (aligned_no_match _ _ _ _ M A)).
    cbn [map outline]. now rewrite IH.
  - rewrite (ReFacts.tokens_hit _ (ReFacts.match_here_complete rest G)).
    rewrite (ReFacts.tokens_hit _ (ReFacts.match_here_complete out G')).
    cbn [map outline Re.group1 Re.group2]. now rewrite IH.
Qed.

(** *** The endpoints, path by path *)

Lemma shrink_total PIL_AVAILABLE s max_size_kb :
  exists out, shrink PIL_AVAILABLE s max_size_kb = Ok out.
Proof.
  destruct PIL_AVAILABLE; [|now exists s].
  eexists. apply shrink_render.
Qed.





(** X11: [POST /convert_text] with a body that is empty, or has no [text], is
    answered with 400 and [No text content provided]. *)
Theorem convert_text_requires_text PIL_AVAILABLE request data :
  get_json request = Ok data ->
  falsy data = true \/ json_contains (lit "text") data = Ok false ->
  handle_text PIL_AVAILABLE request
  = ([], error_response "No text content provided").
Proof.
  intros J H. unfold convert_text. rewrite J. cbn [bind].
  destruct (falsy data); [reflexivity|].
  destruct H as [H|H]; [discriminate H|]. now rewrite H.
Qed.

(** X12: A JSON body that is not an object never reaches the converter: it is
    answered with 400 when it is empty or does not contain [text], and with
    500 otherwise, when looking for [text] in it or reading [text] from it
    raises. *)
Theorem body_must_be_an_object PIL_AVAILABLE request data :
  get_json request = Ok data ->
  (forall d, data <> JDict d) ->
  fst (handle_text PIL_AVAILABLE request) = [] /\
  (status (snd (handle_text PIL_AVAILABLE request)) = 400 <->
   falsy data = true \/ json_contains (lit "text") data = Ok false) /\
  (status (snd (handle_text PIL_AVAILABLE request)) = 500 <->
   falsy data = false /\ json_contains (lit "text") data <> Ok false).
Proof.
  intros J N.
  assert (R : handle_text PIL_AVAILABLE request
              = ([], if falsy data
                     then error_response "No text content provided"
                     else match json_contains (lit "text") data with
                          | Ok false =>
                              error_response "No text content provided"
                          | Ok true =>
                              server_error
                                (type_error "indices must be integers")
                          | Raise e => server_error e
                          end)).
  { unfold convert_text. rewrite J. cbv beta iota delta [bind].
    destruct (falsy data); [reflexivity|].
    destruct data as [| b | n | x | s | l | d]; try reflexivity.
    - cbn [json_contains].
      destruct (Builtins.contains (lit "text") s); reflexivity.
    - cbn [json_contains].
      destruct (existsb _ l); reflexivity.
    - now destruct (N d). }
  rewrite R. cbn [fst snd]. split; [reflexivity|].
  destruct (falsy data).
  - cbn. split; split; try discriminate; try tauto.
    intros [H _]. discriminate H.
  - destruct (json_contains (lit "text") data) as [[|]|e]; cbn;
      split; split; try discriminate; try tauto;
      try (intros [H|H]; discriminate H);
      try (intros _; split; [reflexivity | discriminate]).
Qed.




(** X16: Whatever the upload, [POST /convert] ends in one of three ways: before
    any call, with 400 or 500; after the converter raised, with 500 and the
    text of its exception, the shrinker not called; or after the converter
    and then the shrinker were called once each, with 200 and the text the
    shrinker returned. *)
Theorem convert_file_outcomes PIL_AVAILABLE request :
  let r := handle_file PIL_AVAILABLE request in
  (fst r = [] /\ (status (snd r) = 400 \/ status (snd r) = 500)) \/
  (exists stream info keep e,
      fst r = [CallConvert stream info keep] /\
      convert_stream stream info keep = Raise e /\
      snd r = server_error e) \/
  (exists stream info keep text max_size_kb out,
      fst r = [CallConvert stream info keep; CallShrink text max_size_kb] /\
      convert_stream stream info keep = Ok text /\
      shrink PIL_AVAILABLE text max_size_kb = Ok out /\
      snd r = mk_response (Text out) 200).
Proof.
  unfold convert_file.
  destruct (lookup (lit "file") (files request)) as [file|];
    [|left; split; [reflexivity | now left]].
  destruct (str_eqb (filename file) []);
    [left; split; [reflexivity | now left]|].
  destruct (int_of_str int_unicode _) as [max_size_kb|e].
  2:{ left. destruct (is_ValueError e); split; try reflexivity;
        [now left | now right]. }
  match goal with
  | |- context [convert_stream ?s ?i ?k] =>
      destruct (convert_stream s i k) as [text|e] eqn:C
  end.
  - right; right.
    destruct (shrink_total PIL_AVAILABLE text max_size_kb) as [out S].
    rewrite S. cbn [fst snd]. eauto 10.
  - right; left. cbn [fst snd]. eauto 10.
Qed.

(** X17: Whatever the body, [POST /convert_text] ends in one of three ways:
    before any call, with 400 or 500; after the converter raised, with 500
    and the text of its exception, the shrinker not called; or after the
    converter and then the shrinker were called once each, with 200 and the
    text the shrinker returned. *)
Theorem convert_text_outcomes PIL_AVAILABLE request :
  let r := handle_text PIL_AVAILABLE request in
  (fst r = [] /\ (status (snd r) = 400 \/ status (snd r) = 500)) \/
  (exists stream info keep e,
      fst r = [CallConvert stream info keep] /\
      convert_stream stream info keep = Raise e /\
      snd r = server_error e) \/
  (exists stream info keep text max_size_kb out,
      fst r = [CallConvert stream info keep; CallShrink text max_size_kb] /\
      convert_stream stream info keep = Ok text /\
      shrink PIL_AVAILABLE text max_size_kb = Ok out /\
      snd r = mk_response (Text out) 200).
Proof.
  unfold convert_text.
  destruct (get_json request) as [data|e]; cbn [bind];
    [|left; split; [reflexivity | now right]].
  destruct (falsy data); cbn [bind];
    [left; split; [reflexivity | now left]|].
  destruct (json_contains (lit "text") data) as [[|]|e]; cbn [bind];
    [| left; split; [reflexivity | now left]
     | left; split; [reflexivity | now right]].
  destruct (json_getitem data (lit "text")) as [t|e]; cbn [bind];
    [|left; split; [reflexivity | now right]].
  destruct (json_get data (lit "content_type") (JStr (lit "text/plain")))
    as [content_type|e]; cbn [bind];
    [|left; split; [reflexivity | now right]].
  destruct (json_get data (lit "max_size_kb") (JInt 200)) as [v|e];
    cbn [bind].
  2:{ left. destruct (is_ValueError e || is_TypeError e); split;
        try reflexivity; [now left | now right]. }
  destruct (int_of_json int_unicode v) as [max_size_kb|e].
  2:{ left. destruct (is_ValueError e || is_TypeError e); split;
        try reflexivity; [now left | now right]. }
  destruct t as [| b | n | x | text | l | d0];
    try (left; split; [reflexivity | now right]).
  match goal with
  | |- context [convert_stream ?s ?i ?k] =>
      destruct (convert_stream s i k) as [result|e] eqn:C
  end.
  - right; right.
    destruct (shrink_total PIL_AVAILABLE result max_size_kb) as [out S].
    rewrite S. cbn [fst snd]. eauto 10.
  - right; left. cbn [fst snd]. eauto 10.
Qed.

Lemma lookup_other {A} (k key : str) (v : A) d :
  str_eqb k key = false -> lookup key ((k, v) :: d) = lookup key d.
Proof. intros E. cbn [lookup]. now rewrite E. Qed.

(** X18: The form fields [POST /convert] does not find are read as
    [keep_data_uris=false] and [max_size_kb=200]. *)
Theorem convert_file_defaults PIL_AVAILABLE request :
  lookup (lit "keep_data_uris") (form request) = None ->
  lookup (lit "max_size_kb") (form request) = None ->
  handle_file PIL_AVAILABLE request
  = handle_file PIL_AVAILABLE
      (mk_upload (files request)
         ((lit "keep_data_uris", lit "false")
            :: (lit "max_size_kb", lit "200") :: form request)).
Proof.
  intros K M. unfold convert_file. cbn [files form].
  assert (G1 : forall default,
             get ((lit "keep_data_uris", lit "false")
                    :: (lit "max_size_kb", lit "200") :: form request)
               (lit "keep_data_uris") default = lit "false").
  { intros default. unfold get. cbn [lookup]. now rewrite str_eqb_refl. }
  assert (G2 : forall default,
             get ((lit "keep_data_uris", lit "false")
                    :: (lit "max_size_kb", lit "200") :: form request)
               (lit "max_size_kb") default = lit "200").
  { intros default. unfold get.
    rewrite lookup_other by reflexivity.
    cbn [lookup]. now rewrite str_eqb_refl. }
  rewrite G1, G2. unfold get. rewrite K, M. reflexivity.
Qed.

Lemma lookup_app {A} (key : str) (d d' : list (str * A)) :
  lookup key (d ++ d')
  = match lookup key d with Some v => Some v | None => lookup key d' end.
Proof.
  induction d as [|[k v] d IH]; cbn [lookup app]; [reflexivity|].
  now destruct (str_eqb k key).
Qed.

(** X19: The members [POST /convert_text] does not find in the body are read as
    [content_type] [text/plain] and [max_size_kb] [200]. *)
Theorem convert_text_defaults PIL_AVAILABLE request d :
  get_json request = Ok (JDict d) ->
  lookup (lit "content_type") d = None ->
  lookup (lit "max_size_kb") d = None ->
  handle_text PIL_AVAILABLE request
  = handle_text PIL_AVAILABLE
      (mk_text (Ok (JDict (d ++ [(lit "content_type", JStr (lit "text/plain"));
                                 (lit "max_size_kb", JInt 200)])))).
Proof.
  intros J C M. unfold convert_text. rewrite J. cbn [get_json].
  destruct d as [|kv d']; [reflexivity|].
  set (extra := [(lit "content_type", JStr (lit "text/plain"));
                 (lit "max_size_kb", JInt 200)]).
  assert (E1 : lookup (lit "text") extra = None) by reflexivity.
  assert (E2 : lookup (lit "content_type") extra
               = Some (JStr (lit "text/plain"))) by reflexivity.
  assert (E3 : lookup (lit "max_size_kb") extra = Some (JInt 200))
    by reflexivity.
  cbv beta iota delta [bind json_contains json_getitem json_get get].
  change (falsy (JDict ((kv :: d') ++ extra))) with false.
  change (falsy (JDict (kv :: d'))) with false.
  cbv beta iota.
  rewrite !lookup_app, !C, !M, ?E1, ?E2, ?E3.
  destruct (lookup (lit "text") (kv :: d')); reflexivity.
Qed.

(** *** The first encoding that fits *)

Lemma loop_first_fit
    (dims : forall img, 0 <= width img < 2 ^ 31 /\ 0 <= height img < 2 ^ 31)
    max_size_kb m img (resized : nat -> image) (encoding : nat -> bytes) k :
  forall n i,
    (i + n <= 5)%nat -> (k < n)%nat ->
    (forall j, (j <= k)%nat ->
       Image_resize img (target_size width height img (S (i + j))) LANCZOS
       = Ok (resized (i + j)%nat)) ->
    (forall j, (j <= k)%nat ->
       Image_save (resized (i + j)%nat) (save_format (Re.group2 m))
         (quality_of (save_format (Re.group2 m))) true
       = Ok (encoding (i + j)%nat)) ->
    (forall j, (j < k)%nat ->
       1024 * max_size_kb < len (encoding (i + j)%nat)) ->
    len (encoding (i + k)%nat) <= 1024 * max_size_kb ->
    loop max_size_kb m img n (scale_at i)
    = (map (target_size width height img) (seq (S i) (S k)),
       Ok (image_block (Re.group1 m) (Re.group2 m)
             (Base64.b64encode (encoding (i + k)%nat)))).
Proof.
  induction k as [|k IH]; intros n i Hi Hk R V Over Fit;
    (destruct n as [|n]; [lia|]);
    cbn [shrink_loop]; rewrite (new_size_at dims) by lia;
    pose proof (R 0%nat ltac:(lia)) as R0;
    pose proof (V 0%nat ltac:(lia)) as S0;
    rewrite Nat.add_0_r in R0, S0;
    unfold Logged.bindM at 1; unfold Logged.lift at 1;
    unfold Logged.bindM at 1; rewrite R0;
    unfold Logged.bindM at 1; unfold Logged.lift at 1;
    rewrite save_call, S0.
  - rewrite Nat.add_0_r in Fit.
    rewrite (proj2 (kb_le _ _) Fit), Nat.add_0_r. reflexivity.
  - pose proof (Over 0%nat ltac:(lia)) as O0. rewrite Nat.add_0_r in O0.
    destruct (Qle_bool (kb (encoding i)) (inject_Z max_size_kb)) eqn:Q;
      [apply kb_le in Q; lia|].
    rewrite scale_mul.
    rewrite (IH n (S i)); try lia.
    + replace (S i + k)%nat with (i + S k)%nat by lia.
      reflexivity.
    + intros j Hj.
      replace (S i + j)%nat with (i + S j)%nat by lia.
      apply R. lia.
    + intros j Hj.
      replace (S i + j)%nat with (i + S j)%nat by lia.
      apply V. lia.
    + intros j Hj.
      replace (S i + j)%nat with (i + S j)%nat by lia.
      apply Over. lia.
    + replace (S i + k)%nat with (i + S k)%nat by lia.
      exact Fit.
Qed.

(** X20: The loop stops at the first encoding that fits.  When the first [k]
    encodings of an over-budget image are over the budget and the next one
    fits, with [k] below five, [resize] has been asked [k + 1] times, for
    the sizes of the attempts one to [k + 1] in this order, and the block
    comes back with the last encoding as its payload. *)
Theorem first_fitting_attempt_wins max_size_kb m data0 img
    (resized : nat -> image) (encoding : nat -> bytes) k :
  (forall img, 0 <= width img < 2 ^ 31 /\ 0 <= height img < 2 ^ 31) ->
  Base64.b64decode (Re.group3 m) = Ok data0 ->
  1024 * max_size_kb < len data0 ->
  Image_open data0 = Ok img ->
  (k < 5)%nat ->
  (forall j, (j <= k)%nat ->
     Image_resize img (target_size width height img (S j)) LANCZOS
     = Ok (resized j)) ->
  (forall j, (j <= k)%nat ->
     Image_save (resized j) (save_format (Re.group2 m))
       (quality_of (save_format (Re.group2 m))) true
     = Ok (encoding j)) ->
  (forall j, (j < k)%nat -> 1024 * max_size_kb < len (encoding j)) ->
  len (encoding k) <= 1024 * max_size_kb ->
  try_body max_size_kb m
  = (map (target_size width height img) (seq 1 (S k)),
     Ok (image_block (Re.group1 m) (Re.group2 m)
           (Base64.b64encode (encoding k)))) /\
  callback max_size_kb m
  = Ok (image_block (Re.group1 m) (Re.group2 m)
          (Base64.b64encode (encoding k))).
Proof.
  intros dims D Over O Hk R V Overs Fit.
  assert (T : try_body max_size_kb m
              = (map (target_size width height img) (seq 1 (S k)),
                 Ok (image_block (Re.group1 m) (Re.group2 m)
                       (Base64.b64encode (encoding k))))).
  { unfold resize_image_try. rewrite D.
    unfold Logged.bindM at 1; unfold Logged.lift at 1.
    destruct (Qle_bool (kb data0) (inject_Z max_size_kb)) eqn:Q;
      [apply kb_le in Q; lia|].
    rewrite O. unfold Logged.bindM at 1; unfold Logged.lift at 1.
    change PyFloat.lit_0_8 with (scale_at 0).
    rewrite (loop_first_fit dims max_size_kb m img resized encoding k
               max_iterations 0%nat); try assumption.
    - reflexivity.
    - unfold max_iterations. lia. }
  split; [exact T|].
  unfold resize_image_match, Logged.result. now rewrite T.
Qed.

End Properties.

(** ** The theorems at work on the toy codec *)

Lemma str_neq (a b : str) : str_eqb a b = false -> a <> b.
Proof.
  unfold str_eqb. destruct (list_eq_dec ascii_dec a b); congruence.
Qed.

Lemma toy_dimensions (img : Toy.image) :
  0 <= Toy.width img < 2 ^ 31 /\ 0 <= Toy.height img < 2 ^ 31.
Proof.
  unfold Toy.width, Toy.height.
  pose proof (Base64Facts.byte_val_range (fst img)).
  pose proof (Base64Facts.byte_val_range (snd img)). lia.
Qed.

Lemma toy_save_nonempty (img : Toy.image) fmt quality optimize data :
  Toy.save img fmt quality optimize = Ok data -> data <> [].
Proof. unfold Toy.save, Toy.picture. intros [= <-]. discriminate. Qed.

Lemma over_budget_witness :
  exists r,
    Toy.shrink true (Toy.doc 40 40) 1
    = Ok (flat_map (Toy.render 1) [Re.Chr "a"] ++ r
          ++ flat_map (Toy.render 1) [Re.Chr "b"]) /\
    (r = Re.group0 (Toy.the_match 40 40) \/
     exists payload data,
       r = image_block (Re.group1 (Toy.the_match 40 40))
             (Re.group2 (Toy.the_match 40 40)) payload /\
       Base64.b64decode payload = Ok data /\
       (len data # 1024 <= inject_Z 1)%Q).
Proof.
  apply (over_budget_fits_or_unchanged Toy.image Toy.open Toy.width
           Toy.height Toy.resize Toy.save Toy.unicode (Toy.doc 40 40) 1
           [Re.Chr "a"] (Toy.the_match 40 40) [Re.Chr "b"]
           (Toy.picture 40 40)).
  - vm_compute. reflexivity.
  - vm_compute. reflexivity.
  - vm_compute. reflexivity.
Defined.

Lemma under_budget_witness :
  Toy.callback 1 (Toy.the_match 20 20) = Ok (Re.group0 (Toy.the_match 20 20)) /\
  Toy.shrink true (Toy.doc 20 20) 1
  = Ok (flat_map (Toy.render 1) [Re.Chr "a"]
        ++ Re.group0 (Toy.the_match 20 20)
        ++ flat_map (Toy.render 1) [Re.Chr "b"]).
Proof.
  apply (under_budget_unchanged Toy.image Toy.open Toy.width Toy.height
           Toy.resize Toy.save Toy.unicode (Toy.doc 20 20) 1
           [Re.Chr "a"] (Toy.the_match 20 20) [Re.Chr "b"]
           (Toy.picture 20 20)).
  - vm_compute. reflexivity.
  - vm_compute. reflexivity.
  - vm_compute. discriminate.
Defined.

Lemma never_raises_witness :
  Toy.render 1 (Re.Hit Toy.broken) = Re.group0 Toy.broken.
Proof.
  pose proof (never_raises Toy.image Toy.open Toy.width Toy.height
                Toy.resize Toy.save Toy.unicode true (Toy.doc 40 40) 1)
    as (_ & _ & _ & undecodable & _).
  eapply undecodable. vm_compute. reflexivity.
Defined.

Lemma replaced_block_witness :
  exists payload data0 data img,
    Re.group0 (Toy.the_match 40 40)
    = image_block (Re.group1 (Toy.the_match 40 40))
        (Re.group2 (Toy.the_match 40 40)) (Re.group3 (Toy.the_match 40 40)) /\
    image_block (lit "x") (lit "jpg") (Toy.payload 25 25)
    = image_block (Re.group1 (Toy.the_match 40 40))
        (Re.group2 (Toy.the_match 40 40)) payload /\
    payload <> Re.group3 (Toy.the_match 40 40) /\
    Base64.b64decode (Re.group3 (Toy.the_match 40 40)) = Ok data0 /\
    Base64.b64decode payload = Ok data /\
    len data < len data0 /\
    Toy.open data0 = Ok img /\
    encoded_from Toy.resize Toy.save Toy.unicode img
      (Re.group2 (Toy.the_match 40 40)) data /\
    save_format_of Toy.unicode (lit "jpg") = lit "JPEG".
Proof.
  apply (replaced_block_keeps_tag Toy.image Toy.open Toy.width Toy.height
           Toy.resize Toy.save Toy.unicode (Toy.doc 40 40) 1
           (Toy.the_match 40 40)).
  - vm_compute. right. left. reflexivity.
  - vm_compute. reflexivity.
  - intros H. apply (f_equal len) in H. vm_compute in H. discriminate H.
Defined.

Lemma attempts_witness :
  let attempts := Logged.calls (Toy.try_body 0 (Toy.the_match 40 40)) in
  (List.length attempts <= 5)%nat /\
  (attempts = [] \/
   exists data0 img,
     Base64.b64decode (Re.group3 (Toy.the_match 40 40)) = Ok data0 /\
     Toy.open data0 = Ok img /\
     attempts = map (target_size Toy.width Toy.height img)
                    (seq 1 (List.length attempts))) /\
  (forall img i,
      fst (target_size Toy.width Toy.height img (S i))
        <= fst (target_size Toy.width Toy.height img i) /\
      snd (target_size Toy.width Toy.height img (S i))
        <= snd (target_size Toy.width Toy.height img i)).
Proof.
  apply (attempts_scaled_from_original Toy.image Toy.open Toy.width
           Toy.height Toy.resize Toy.save Toy.unicode).
  exact toy_dimensions.
Defined.

Lemma idempotent_witness :
  exists out,
    Toy.shrink true (Toy.doc 40 40) 1 = Ok out /\
    Toy.shrink true out 1 = Ok out.
Proof.
  apply (shrink_idempotent Toy.image Toy.open Toy.width Toy.height
           Toy.resize Toy.save Toy.unicode).
  exact toy_save_nonempty.
Defined.

Lemma missing_file_witness :
  Toy.handle_file true Toy.no_file
  = ([], mk_response
           (Json (JDict [(lit "error", JStr (lit "No file provided"))])) 400)
  /\
  Toy.handle_file true Toy.unnamed_file
  = ([], mk_response
           (Json (JDict [(lit "error", JStr (lit "No file selected"))])) 400).
Proof.
  split.
  - apply (proj1 (missing_file_is_400 Toy.image Toy.open Toy.width
                    Toy.height Toy.resize Toy.save Toy.convert Toy.unicode
                    Toy.unicode Toy.unicode Toy.unicode Toy.int_unicode
                    true Toy.no_file)).
    reflexivity.
  - apply (proj2 (missing_file_is_400 Toy.image Toy.open Toy.width
                    Toy.height Toy.resize Toy.save Toy.convert Toy.unicode
                    Toy.unicode Toy.unicode Toy.unicode Toy.int_unicode
                    true Toy.unnamed_file) Toy.unnamed).
    + reflexivity.
    + reflexivity.
Defined.

(** Without the assumption on the encoder a second pass may change the
    text again: when it writes nothing, the block it produced no longer
    matches the pattern, and the scan of the second pass finds another
    block behind it. *)
Remark blank_encoder_second_pass :
  Blank.shrink true Blank.doc 0
  = Ok (lit "![a](data:image/x![b;base64,)](data:image/png;base64,AQE=)") /\
  Blank.shrink true
    (lit "![a](data:image/x![b;base64,)](data:image/png;base64,AQE=)") 0
  = Ok (lit "![a](data:image/x![b;base64,)](data:image/png;base64,)").
Proof. split; vm_compute; reflexivity. Qed.

(** ** The further properties at work *)

Lemma pattern_witness :
  Re.match_here (image_block (lit "x") (lit "png") (lit "AAAA") ++ lit "b")
  = Some (Re.mk_match (image_block (lit "x") (lit "png") (lit "AAAA"))
            (lit "x") (lit "png") (lit "AAAA"), lit "b").
Proof.
  apply (proj2 (pattern_matches_blocks
                  (image_block (lit "x") (lit "png") (lit "AAAA") ++ lit "b")
                  (Re.mk_match (image_block (lit "x") (lit "png") (lit "AAAA"))
                     (lit "x") (lit "png") (lit "AAAA"))
                  (lit "b"))).
  exists (lit "x"), (lit "png"), (lit "AAAA").
  split; [|split; reflexivity].
  unfold Re.groups_ok. cbn. intuition discriminate.
Defined.

Lemma plain_text_witness :
  Toy.shrink true (lit "no image") 200 = Ok (lit "no image").
Proof.
  apply (plain_text_unchanged Toy.image Toy.open Toy.width Toy.height
           Toy.resize Toy.save Toy.unicode true (lit "no image") 200).
  cbn. intuition discriminate.
Defined.

Lemma within_budget_witness :
  Toy.shrink true (Toy.doc 20 20) 1 = Ok (Toy.doc 20 20).
Proof.
  apply (within_budget_document_unchanged Toy.image Toy.open Toy.width
           Toy.height Toy.resize Toy.save Toy.unicode true (Toy.doc 20 20) 1).
  intros m data0 I D. vm_compute in I.
  destruct I as [I|[I|[I|[]]]]; try discriminate I.
  injection I as <-. vm_compute in D. injection D as <-.
  vm_compute. discriminate.
Defined.

Lemma hopeless_budget_witness :
  Toy.shrink true (Toy.doc 40 40) 0 = Ok (Toy.doc 40 40).
Proof.
  apply (hopeless_budget_document_unchanged Toy.image Toy.open Toy.width
           Toy.height Toy.resize Toy.save Toy.unicode true (Toy.doc 40 40) 0).
  intros img fmt quality optimize data E.
  unfold Toy.save, Toy.picture in E. injection E as <-.
  unfold len. cbn [List.length]. lia.
Defined.

Lemma negative_budget_witness :
  Toy.shrink true (Toy.doc 40 40) (-1) = Ok (Toy.doc 40 40).
Proof.
  apply (negative_budget_document_unchanged Toy.image Toy.open Toy.width
           Toy.height Toy.resize Toy.save Toy.unicode true (Toy.doc 40 40)
           (-1)).
  lia.
Defined.

Lemma save_format_witness :
  quality_of (save_format_of Toy.unicode (lit "jpg")) = Some 85.
Proof.
  apply (proj2 (proj2 (save_format_normalised Toy.unicode (lit "jpg")))).
  left. reflexivity.
Defined.

Lemma blocks_places_witness :
  map outline
    (Re.tokens
       (lit "a" ++ image_block (lit "x") (lit "jpg") (Toy.payload 25 25)
          ++ lit "b"))
  = map outline (Re.tokens (Toy.doc 40 40)).
Proof.
  apply (blocks_keep_their_places Toy.image Toy.open Toy.width Toy.height
           Toy.resize Toy.save Toy.unicode true (Toy.doc 40 40) 1).
  - exact toy_save_nonempty.
  - vm_compute. reflexivity.
Defined.



Lemma requires_text_witness :
  Demo.handle_text Toy.convert true
    (mk_text (Ok (JDict [(lit "body", JStr (lit "hi"))])))
  = ([], error_response "No text content provided").
Proof.
  apply (convert_text_requires_text Toy.image Toy.open Toy.width Toy.height
           Toy.resize Toy.save Toy.convert Toy.unicode Toy.int_unicode true
           (mk_text (Ok (JDict [(lit "body", JStr (lit "hi"))])))
           (JDict [(lit "body", JStr (lit "hi"))])).
  - reflexivity.
  - right. reflexivity.
Defined.

Lemma object_body_witness :
  fst (Demo.handle_text Toy.convert true
         (mk_text (Ok (JStr (lit "some text"))))) = [] /\
  status (snd (Demo.handle_text Toy.convert true
                 (mk_text (Ok (JStr (lit "some text")))))) = 500.
Proof.
  destruct (body_must_be_an_object Toy.image Toy.open Toy.width Toy.height
              Toy.resize Toy.save Toy.convert Toy.unicode Toy.int_unicode
              true (mk_text (Ok (JStr (lit "some text"))))
              (JStr (lit "some text")))
    as (none & _ & failed).
  - reflexivity.
  - intros d H. discriminate H.
  - split; [exact none|]. apply failed.
    split; [reflexivity | vm_compute; discriminate].
Defined.




Lemma file_defaults_witness :
  Demo.handle_file Toy.convert true (Demo.upload [])
  = Demo.handle_file Toy.convert true
      (Demo.upload [(lit "keep_data_uris", lit "false");
                    (lit "max_size_kb", lit "200")]).
Proof.
  apply (convert_file_defaults Toy.image Toy.open Toy.width Toy.height
           Toy.resize Toy.save Toy.convert Toy.unicode Demo.extension
           Toy.unicode Toy.unicode Toy.int_unicode true (Demo.upload [])).
  - reflexivity.
  - reflexivity.
Defined.

Lemma text_defaults_witness :
  Demo.handle_text Toy.convert true (Demo.post [])
  = Demo.handle_text Toy.convert true
      (Demo.post [(lit "content_type", JStr (lit "text/plain"));
                  (lit "max_size_kb", JInt 200)]).
Proof.
  apply (convert_text_defaults Toy.image Toy.open Toy.width Toy.height
           Toy.resize Toy.save Toy.convert Toy.unicode Toy.int_unicode true
           (Demo.post []) (Demo.members [])).
  - reflexivity.
  - reflexivity.
  - reflexivity.
Defined.

Lemma first_fit_witness :
  Toy.try_body 1 (Toy.the_match 40 40)
  = (map (target_size Toy.width Toy.height Demo.original) (seq 1 2),
     Ok (image_block (Re.group1 (Toy.the_match 40 40))
           (Re.group2 (Toy.the_match 40 40))
           (Base64.b64encode (Demo.encoding 1)))) /\
  Toy.callback 1 (Toy.the_match 40 40)
  = Ok (image_block (Re.group1 (Toy.the_match 40 40))
          (Re.group2 (Toy.the_match 40 40))
          (Base64.b64encode (Demo.encoding 1))).
Proof.
  apply (first_fitting_attempt_wins Toy.image Toy.open Toy.width Toy.height
           Toy.resize Toy.save Toy.unicode 1 (Toy.the_match 40 40)
           (Toy.picture 40 40) Demo.original Demo.resized Demo.encoding
           1%nat).
  - exact toy_dimensions.
  - vm_compute. reflexivity.
  - vm_compute. reflexivity.
  - reflexivity.
  - lia.
  - intros j Hj. destruct j as [|[|j]]; [vm_compute; reflexivity .. | lia].
  - intros j Hj. destruct j as [|[|j]]; [vm_compute; reflexivity .. | lia].
  - intros j Hj. destruct j as [|j]; [vm_compute; reflexivity | lia].
  - vm_compute. discriminate.
Defined.
